(** * ObservableService (src/main.js of util.observable)

    A shallow embedding of the class [ObservableService]: a plain object
    wrapped in a [Proxy] whose [set] and [deleteProperty] traps record the
    state before a batch, commit the change with [Reflect.set] /
    [Reflect.deleteProperty] and queue one micro-task that hands frozen
    copies of the new and the old state to every subscriber.

    JavaScript objects live in a heap and are referred to by location, so
    that "a new object" ([{ ...x }]) and "the same object" are different
    things in the model, as they are in the program. *)

From Stdlib Require Import Floats.SpecFloat.
From stdpp Require Import base option list gmap strings.

(** ** Values *)

(** A location in the heap (an object reference). *)
Abbreviation loc := nat.

(** The identity of a function object: subscribers are compared by
    reference by [Set.prototype.add] and [Set.prototype.delete]. *)
Abbreviation fn := nat.

(** ECMAScript language values.  Numbers are IEEE 754 doubles in the
    sign / mantissa / exponent form of the Standard Library. *)
Inductive value :=
  | VUndefined
  | VNull
  | VBoolean (b : bool)
  | VNumber (x : spec_float)
  | VBigInt (z : Z)
  | VString (s : string)
  | VSymbol (n : positive)
  | VObject (l : loc).

Definition NaN : value := VNumber S754_nan.
Definition pos_zero : value := VNumber (S754_zero false).
Definition neg_zero : value := VNumber (S754_zero true).
(** A non-zero integer [n] as a double with exponent 0; [num 0] is [+0]. *)
Definition num (n : Z) : value :=
  match n with
  | Z0 => pos_zero
  | Zpos p => VNumber (S754_finite false p 0)
  | Zneg p => VNumber (S754_finite true p 0)
  end.

(** [Number::sameValue]: NaN is the same as NaN, +0 and -0 differ. *)
Definition Number_sameValue (x y : spec_float) : bool :=
  match x, y with
  | S754_nan, S754_nan => true
  | S754_zero s1, S754_zero s2 => Bool.eqb s1 s2
  | S754_infinity s1, S754_infinity s2 => Bool.eqb s1 s2
  | S754_finite s1 m1 e1, S754_finite s2 m2 e2 =>
      Bool.eqb s1 s2 && (m1 =? m2)%positive && (e1 =? e2)%Z
  | _, _ => false
  end.

(** [Object.is] (the abstract operation SameValue). *)
Definition Object_is (x y : value) : bool :=
  match x, y with
  | VUndefined, VUndefined => true
  | VNull, VNull => true
  | VBoolean a, VBoolean b => Bool.eqb a b
  | VNumber a, VNumber b => Number_sameValue a b
  | VBigInt a, VBigInt b => (a =? b)%Z
  | VString a, VString b => bool_decide (a = b)
  | VSymbol a, VSymbol b => (a =? b)%positive
  | VObject a, VObject b => bool_decide (a = b)
  | _, _ => false
  end.

(** ** Property keys and ordinary objects *)

(** A property key is a string or a symbol. *)
Inductive key :=
  | KString (s : string)
  | KSymbol (n : positive).

#[global] Instance key_eq_dec : EqDecision key.
Proof. solve_decision. Defined.

#[global] Instance key_countable : Countable key.
Proof.
  refine (inj_countable'
    (λ k, match k with KString s => inl s | KSymbol n => inr n end)
    (λ x, match x with inl s => KString s | inr n => KSymbol n end) _).
  by intros [].
Defined.

(** A data property with its attributes. *)
Record property := Property {
  p_value : value;
  p_writable : bool;
  p_enumerable : bool;
  p_configurable : bool;
}.

(** The property an assignment or an object literal creates. *)
Definition data (v : value) : property := Property v true true true.

(** An ordinary object: its own data properties and [[Extensible]].
    Accessor properties and inherited properties are outside the model:
    the objects of interest are records written as object literals,
    possibly locked afterwards with [Object.preventExtensions],
    [Object.seal] or [Object.freeze]. *)
Record object := Obj {
  props : gmap key property;
  extensible : bool;
}.

(** [{}] *)
Definition empty_object : object := Obj ∅ true.

#[global] Instance object_inhabited : Inhabited object := populate empty_object.

(** [Reflect.get(o, k)] on the own properties of [o]: the value of the
    own data property [k], [undefined] when [o] has no own property [k].
    This is what [Reflect.get] returns whenever [k] is an own property
    of [o], and whenever no object of the prototype chain of [o] has a
    property [k]; a key that [o] only inherits is outside the model. *)
Definition Reflect_get (o : object) (k : key) : value :=
  match props o !! k with
  | Some p => p_value p
  | None => VUndefined
  end.

(** [Object.hasOwn(o, k)] *)
Definition Object_hasOwn (o : object) (k : key) : bool :=
  match props o !! k with
  | Some _ => true
  | None => false
  end.

(** [Reflect.set(o, k, v)]: the object afterwards and the boolean result.
    An existing property must be writable, a new one needs an extensible
    object. *)
Definition Reflect_set (o : object) (k : key) (v : value) : object * bool :=
  match props o !! k with
  | Some p =>
      if p_writable p
      then (Obj (<[k := Property v true (p_enumerable p) (p_configurable p)]> (props o))
                (extensible o), true)
      else (o, false)
  | None =>
      if extensible o
      then (Obj (<[k := data v]> (props o)) true, true)
      else (o, false)
  end.

(** [Reflect.deleteProperty(o, k)] *)
Definition Reflect_deleteProperty (o : object) (k : key) : object * bool :=
  match props o !! k with
  | Some p =>
      if p_configurable p
      then (Obj (delete k (props o)) (extensible o), true)
      else (o, false)
  | None => (o, true)
  end.

(** [{ ...o }]: a new extensible object with the own enumerable properties
    of [o], each one writable, enumerable and configurable. *)
Definition spread (o : object) : object :=
  Obj (omap (λ p, if p_enumerable p then Some (data (p_value p)) else None) (props o))
      true.

(** [Object.freeze(o)] *)
Definition Object_freeze (o : object) : object :=
  Obj ((λ p, Property (p_value p) false (p_enumerable p) false) <$> props o) false.

(** [Object.isFrozen(o)] *)
Definition Object_isFrozen (o : object) : bool :=
  negb (extensible o) &&
  bool_decide (map_Forall (λ _ p, p_writable p = false ∧ p_configurable p = false) (props o)).

(** The record an object shows to [{ ...o }] and to [deepStrictEqual]:
    its own enumerable keys with their values. *)
Definition record_of (o : object) : gmap key value :=
  omap (λ p, if p_enumerable p then Some (p_value p) else None) (props o).

(** ** The service and its surroundings *)

(** [Set<function>]: the list of entries in insertion order.  As in the
    language definition, [delete] and [clear] leave an emptied slot
    behind, so that an iteration in progress keeps its position and still
    reaches the entries added after it started. *)
Definition Set_add (f : fn) (s : list (option fn)) : list (option fn) :=
  if decide (Some f ∈ s) then s else s ++ [Some f].

Definition Set_delete (f : fn) (s : list (option fn)) : list (option fn) :=
  (λ e, if decide (e = Some f) then None else e) <$> s.

Definition Set_clear (s : list (option fn)) : list (option fn) :=
  (λ _, None) <$> s.

(** The callback handed to [Promise.resolve().then] by [addToQueue]; it
    closes over the argument [update]. *)
Inductive job :=
  | FlushJob (update : loc).

(** The private fields of one [ObservableService] (the proxy [#state]
    has no state of its own: its traps act on [#target]), together with
    the heap, the micro-task queue and the record of the subscriber calls
    made so far (subscriber, first argument, second argument). *)
Record world := World {
  heap : list object;
  subscribers : list (option fn);
  queuedUpdateNotice : bool;
  preBatchStaleState : loc;
  target : loc;
  microtasks : list job;
  calls : list (fn * loc * loc);
}.

Definition set_heap (h : list object) (w : world) : world :=
  World h (subscribers w) (queuedUpdateNotice w) (preBatchStaleState w)
        (target w) (microtasks w) (calls w).
Definition set_subscribers (s : list (option fn)) (w : world) : world :=
  World (heap w) s (queuedUpdateNotice w) (preBatchStaleState w)
        (target w) (microtasks w) (calls w).
Definition set_queuedUpdateNotice (b : bool) (w : world) : world :=
  World (heap w) (subscribers w) b (preBatchStaleState w)
        (target w) (microtasks w) (calls w).
Definition set_preBatchStaleState (l : loc) (w : world) : world :=
  World (heap w) (subscribers w) (queuedUpdateNotice w) l
        (target w) (microtasks w) (calls w).
Definition set_microtasks (q : list job) (w : world) : world :=
  World (heap w) (subscribers w) (queuedUpdateNotice w) (preBatchStaleState w)
        (target w) q (calls w).
Definition set_calls (c : list (fn * loc * loc)) (w : world) : world :=
  World (heap w) (subscribers w) (queuedUpdateNotice w) (preBatchStaleState w)
        (target w) (microtasks w) c.

(** Allocation of a new object: it gets the next free location. *)
Definition alloc (o : object) (w : world) : loc * world :=
  (length (heap w), set_heap (heap w ++ [o]) w).

(** An update in place of the object at [l], from the pair a [Reflect]
    operation returns. *)
Definition store (l : loc) (r : object * bool) (w : world) : world * bool :=
  (set_heap (<[l := r.1]> (heap w)) w, r.2).

(** [new ObservableService(source)]: [source] itself becomes [#target]. *)
Definition constructor (h : list object) (source : loc) : world :=
  World (h ++ [empty_object]) [] false (length h) source [] [].

(** *** Methods *)

Definition subscribe (subscriber : fn) (w : world) : world :=
  set_subscribers (Set_add subscriber (subscribers w)) w.

Definition unsubscribe (subscriber : fn) (w : world) : world :=
  set_subscribers (Set_delete subscriber (subscribers w)) w.

Definition unsubscribeAll (w : world) : world :=
  set_subscribers (Set_clear (subscribers w)) w.

(** [this.#preBatchStaleState = { ...this.#target }] *)
Definition capture (w : world) : world :=
  let '(l, w1) := alloc (spread (heap w !!! target w)) w in
  set_preBatchStaleState l w1.

Definition amendState (k : key) (change : value) (w : world) : world * bool :=
  if Object_is (Reflect_get (heap w !!! target w) k) change then (w, true)
  else
    let w1 := if negb (queuedUpdateNotice w) then capture w else w in
    store (target w1) (Reflect_set (heap w1 !!! target w1) k change) w1.

Definition pruneState (k : key) (w : world) : world * bool :=
  if negb (Object_hasOwn (heap w !!! target w) k) then (w, true)
  else
    let w1 := if negb (queuedUpdateNotice w) then capture w else w in
    store (target w1) (Reflect_deleteProperty (heap w1 !!! target w1) k) w1.

Definition addToQueue (update : loc) (w : world) : world :=
  if queuedUpdateNotice w then w
  else set_microtasks (microtasks w ++ [FlushJob update])
         (set_queuedUpdateNotice true w).

(** The [set] trap of the proxy. *)
Definition agent_set (k : key) (v : value) (w : world) : world * bool :=
  let hadChange := negb (Object_is (Reflect_get (heap w !!! target w) k) v) in
  let '(w1, result) := amendState k v w in
  (if hadChange && result then addToQueue (target w1) w1 else w1, result).

(** The [deleteProperty] trap of the proxy. *)
Definition agent_deleteProperty (k : key) (w : world) : world * bool :=
  let hadChange := Object_hasOwn (heap w !!! target w) k in
  let '(w1, result) := pruneState k w in
  (if hadChange && result then addToQueue (target w1) w1 else w1, result).

(** *** Subscribers *)

(** Which of its two arguments a subscriber refers to. *)
Inductive argument := Fresh | Stale.

(** What a subscriber does when it is called: the operations of the
    public interface it performs on the service that calls it and on the
    two objects it receives, each continued with the result.  A strict
    mode assignment [service.state.k = v] is
    [StateSet k v (λ ok, if ok then ... else Throw ...)]. *)
Inductive script :=
  | Return
  | Throw (e : value)
  | StateGet (k : key) (next : value → script)
  | StateSet (k : key) (v : value) (next : bool → script)
  | StateDelete (k : key) (next : bool → script)
  | CallAmendState (k : key) (v : value) (next : bool → script)
  | CallPruneState (k : key) (next : bool → script)
  | CallSubscribe (f : fn) (next : script)
  | CallUnsubscribe (f : fn) (next : script)
  | CallUnsubscribeAll (next : script)
  | ArgGet (a : argument) (k : key) (next : value → script)
  | ArgSet (a : argument) (k : key) (v : value) (next : bool → script)
  | ArgDelete (a : argument) (k : key) (next : bool → script).

(** How a call, a loop or a job ends. *)
Inductive outcome :=
  | Normal
  | Thrown (e : value)
  | OutOfFuel.

Definition arg_loc (fresh stale : loc) (a : argument) : loc :=
  match a with Fresh => fresh | Stale => stale end.

Fixpoint run_script (fresh stale : loc) (s : script) (w : world) : world * outcome :=
  match s with
  | Return => (w, Normal)
  | Throw e => (w, Thrown e)
  | StateGet k next =>
      run_script fresh stale (next (Reflect_get (heap w !!! target w) k)) w
  | StateSet k v next =>
      let '(w1, r) := agent_set k v w in run_script fresh stale (next r) w1
  | StateDelete k next =>
      let '(w1, r) := agent_deleteProperty k w in run_script fresh stale (next r) w1
  | CallAmendState k v next =>
      let '(w1, r) := amendState k v w in run_script fresh stale (next r) w1
  | CallPruneState k next =>
      let '(w1, r) := pruneState k w in run_script fresh stale (next r) w1
  | CallSubscribe f next => run_script fresh stale next (subscribe f w)
  | CallUnsubscribe f next => run_script fresh stale next (unsubscribe f w)
  | CallUnsubscribeAll next => run_script fresh stale next (unsubscribeAll w)
  | ArgGet a k next =>
      run_script fresh stale
        (next (Reflect_get (heap w !!! arg_loc fresh stale a) k)) w
  | ArgSet a k v next =>
      let l := arg_loc fresh stale a in
      let '(w1, r) := store l (Reflect_set (heap w !!! l) k v) w in
      run_script fresh stale (next r) w1
  | ArgDelete a k next =>
      let l := arg_loc fresh stale a in
      let '(w1, r) := store l (Reflect_deleteProperty (heap w !!! l) k) w in
      run_script fresh stale (next r) w1
  end.

Section Service.

(** The code of every function that may be subscribed. *)
Variable body : fn → script.

(** [for (const subscriber of this.#subscribers) subscriber(fresh, stale)]
    from entry [i] on.  The set is read anew at every step. *)
Fixpoint for_of_subscribers (fuel i : nat) (frozenFresh frozenStale : loc)
    (w : world) : world * outcome :=
  match fuel with
  | O => (w, OutOfFuel)
  | S fuel' =>
      match subscribers w !! i with
      | None => (w, Normal)
      | Some None => for_of_subscribers fuel' (S i) frozenFresh frozenStale w
      | Some (Some subscriber) =>
          let w1 := set_calls (calls w ++ [(subscriber, frozenFresh, frozenStale)]) w in
          match run_script frozenFresh frozenStale (body subscriber) w1 with
          | (w2, Normal) => for_of_subscribers fuel' (S i) frozenFresh frozenStale w2
          | (w2, out) => (w2, out)
          end
      end
  end.

Definition emitQueued (fuel : nat) (fresh stale : loc) (w : world) : world * outcome :=
  let '(frozenFresh, w1) := alloc (Object_freeze (spread (heap w !!! fresh))) w in
  let '(frozenStale, w2) := alloc (Object_freeze (spread (heap w1 !!! stale))) w1 in
  for_of_subscribers fuel 0 frozenFresh frozenStale w2.

(** The queued callback:
    [this.emitQueued(update, this.#preBatchStaleState);
     this.#queuedUpdateNotice = false; this.#preBatchStaleState = {}]. *)
Definition run_job (fuel : nat) (j : job) (w : world) : world * outcome :=
  match j with
  | FlushJob update =>
      match emitQueued fuel update (preBatchStaleState w) w with
      | (w1, Normal) =>
          let w2 := set_queuedUpdateNotice false w1 in
          let '(l, w3) := alloc empty_object w2 in
          (set_preBatchStaleState l w3, Normal)
      | (w1, out) => (w1, out)
      end
  end.

(** The micro-task checkpoint at the end of a turn: the queued jobs run
    one after the other until the queue is empty.  A job that throws
    rejects a promise nobody waits for; the queue goes on. *)
Fixpoint run_microtasks (fuel : nat) (w : world) : option world :=
  match fuel with
  | O => None
  | S fuel' =>
      match microtasks w with
      | [] => Some w
      | j :: rest =>
          match run_job fuel' j (set_microtasks rest w) with
          | (_, OutOfFuel) => None
          | (w1, _) => run_microtasks fuel' w1
          end
      end
  end.

End Service.

(** *** A turn of the caller *)

(** A mutation through the live view [service.state]. *)
Inductive mutation :=
  | Assign (k : key) (v : value)
  | Remove (k : key).

Definition mutate (m : mutation) (w : world) : world * bool :=
  match m with
  | Assign k v => agent_set k v w
  | Remove k => agent_deleteProperty k w
  end.

(** Whether the trap judges the mutation a change of the live record:
    the variable [hadChange] of the two traps. *)
Definition hadChange (m : mutation) (w : world) : bool :=
  match m with
  | Assign k v => negb (Object_is (Reflect_get (heap w !!! target w) k) v)
  | Remove k => Object_hasOwn (heap w !!! target w) k
  end.

(** A mutation that is judged a change and that the target accepts. *)
Definition change_worthy (m : mutation) (w : world) : bool :=
  hadChange m w && (mutate m w).2.

Fixpoint mutate_all (ms : list mutation) (w : world) : world :=
  match ms with
  | [] => w
  | m :: ms' => mutate_all ms' (mutate m w).1
  end.

(** Every mutation of the sequence is change-worthy when its turn comes. *)
Fixpoint all_change_worthy (ms : list mutation) (w : world) : bool :=
  match ms with
  | [] => true
  | m :: ms' => change_worthy m w && all_change_worthy ms' (mutate m w).1
  end.

(** ** Example services *)

Definition a : key := KString "a".
Definition b : key := KString "b".

Definition literal (l : list (key * value)) : object :=
  Obj (list_to_map (prod_map id data <$> l)) true.

Definition passive : fn → script := λ _, Return.

Definition service_ab : world :=
  subscribe 0 (constructor [literal [(a, num 1); (b, num 2)]] 0).

Definition frozen_service : world :=
  subscribe 0 (constructor [Object_freeze (literal [(a, num 1)])] 0).

Definition pending_service : world := (mutate (Assign a (num 3)) service_ab).1.

(** Subscriber [0] assigns [7] to [a] whenever it is called; every other
    one simply returns. *)
Definition reentrant : fn → script :=
  λ f, match f with
       | 0 => StateSet a (num 7) (λ _, Return)
       | _ => Return
       end.

(** Subscriber [0] throws; every other one simply returns. *)
Definition faulty : fn → script :=
  λ f, match f with
       | 0 => Throw (VString "boom")
       | _ => Return
       end.

Definition pending_service_2 : world :=
  (mutate (Assign a (num 3)) (subscribe 1 service_ab)).1.

Definition c : key := KString "c".

(** Every subscriber assigns [9] to [a] on the [fresh] object it
    receives, the way strict code does: the refused assignment throws. *)
Definition strict_writer : fn → script :=
  λ _, ArgSet Fresh a (num 9)
         (λ ok, if ok then Return else Throw (VString "TypeError")).

(** ** Vocabulary of the properties *)

(** The two objects the service refers to exist. *)
Definition well_formed (w : world) : Prop :=
  target w < length (heap w) ∧ preBatchStaleState w < length (heap w).

(** [quiet w w']: from [w] to [w'] the flag, the queue, the baseline and
    the identity of the target are the same, and the heap differs at most
    in the object at the target. *)
Definition quiet (w w' : world) : Prop :=
  queuedUpdateNotice w' = queuedUpdateNotice w ∧
  microtasks w' = microtasks w ∧
  preBatchStaleState w' = preBatchStaleState w ∧
  target w' = target w ∧
  ∃ o, heap w' = <[target w := o]> (heap w).

(** The situation of a subscriber while [emitQueued] iterates: the flag is
    still set, and its two arguments are frozen objects other than the
    target. *)
Definition delivering (frozenFresh frozenStale : loc) (w : world) : Prop :=
  queuedUpdateNotice w = true ∧
  Object_isFrozen (heap w !!! frozenFresh) = true ∧
  Object_isFrozen (heap w !!! frozenStale) = true ∧
  frozenFresh ≠ target w ∧ frozenStale ≠ target w.

(** Every call of the list passes the two given objects. *)
Definition calls_with (lf ls : loc) (cs : list (fn * loc * loc)) : Prop :=
  Forall (λ c, c.1.2 = lf ∧ c.2 = ls) cs.

(** The entries of a set that are still there, in order. *)
Definition active (s : list (option fn)) : list fn := omap id s.

(** The [Reflect] operation a mutation ends in. *)
Definition reflect_op (m : mutation) (o : object) : object * bool :=
  match m with
  | Assign k v => Reflect_set o k v
  | Remove k => Reflect_deleteProperty o k
  end.

(** Some mutation of the sequence is change-worthy when its turn comes. *)
Fixpoint any_change_worthy (ms : list mutation) (w : world) : bool :=
  match ms with
  | [] => false
  | m :: ms' => change_worthy m w || any_change_worthy ms' (mutate m w).1
  end.

(** The parts of the world that are not the subscriber set. *)
Definition same_but_subscribers (w w' : world) : Prop :=
  heap w' = heap w ∧
  queuedUpdateNotice w' = queuedUpdateNotice w ∧
  preBatchStaleState w' = preBatchStaleState w ∧
  target w' = target w ∧
  microtasks w' = microtasks w ∧
  calls w' = calls w.

(** The world in which the loop of [emitQueued] starts. *)
Definition emit_start (update : loc) (w : world) : world :=
  set_heap (heap w ++ [Object_freeze (spread (heap w !!! update))]
                   ++ [Object_freeze (spread (heap w !!! preBatchStaleState w))]) w.

(** What can be said of an object [l] handed out by the flush that took
    the world from [w] to [w']: it did not exist before the flush, it is
    neither the target nor the baseline, and after any further mutations
    of the service it is the same frozen object, on which an assignment
    or a deletion returns without any effect on the world. *)
Definition handed_out (w w' : world) (l : loc) : Prop :=
  length (heap w) ≤ l ∧
  l ≠ target w' ∧ l ≠ preBatchStaleState w ∧ l ≠ preBatchStaleState w' ∧
  ∀ ms,
    let w'' := mutate_all ms w' in
    heap w'' !!! l = heap w' !!! l ∧
    Object_isFrozen (heap w'' !!! l) = true ∧
    (∀ k v, store l (Reflect_set (heap w'' !!! l) k v) w'' = (w'', false)) ∧
    (∀ k, (store l (Reflect_deleteProperty (heap w'' !!! l) k) w'').1 = w'').

(** The two methods under the traps, called directly. *)
Definition call_method (m : mutation) (w : world) : world * bool :=
  match m with
  | Assign k v => amendState k v w
  | Remove k => pruneState k w
  end.

(** The scheduler is in order: the objects it refers to exist, and the
    queue is empty or holds the one flush the flag stands for. *)
Definition consistent (w : world) : Prop :=
  well_formed w ∧
  (microtasks w = [] ∨
   (queuedUpdateNotice w = true ∧ microtasks w = [FlushJob (target w)])).

(** The world after [emitQueued(fresh, stale)] when every subscriber
    returns at once. *)
Definition emitted (fresh stale : loc) (w : world) : world :=
  set_calls
    (calls w ++ ((λ g, (g, length (heap w), S (length (heap w))))
                   <$> active (subscribers w)))
    (set_heap (heap w ++ [Object_freeze (spread (heap w !!! fresh))]
                      ++ [Object_freeze (spread (heap w !!! stale))]) w).

(** The world after a queued flush when every subscriber returns at
    once. *)
Definition flushed (update : loc) (w : world) : world :=
  let w1 := emitted update (preBatchStaleState w) w in
  set_preBatchStaleState (length (heap w1))
    (set_heap (heap w1 ++ [empty_object]) (set_queuedUpdateNotice false w1)).

(** A turn of the caller followed by the micro-task checkpoint. *)
Definition turn (body : fn → script) (fuel : nat) (ms : list mutation)
    (w : world) : option world :=
  run_microtasks body fuel (mutate_all ms w).

(** [subscribes f s]: on some path, the script [s] calls
    [subscribe(f)]. *)
Fixpoint subscribes (f : fn) (s : script) : Prop :=
  match s with
  | Return | Throw _ => False
  | StateGet _ next | ArgGet _ _ next => ∃ v, subscribes f (next v)
  | StateSet _ _ next | StateDelete _ next
  | CallAmendState _ _ next | CallPruneState _ next
  | ArgSet _ _ _ next | ArgDelete _ _ next => ∃ r, subscribes f (next r)
  | CallSubscribe g next => g = f ∨ subscribes f next
  | CallUnsubscribe _ next | CallUnsubscribeAll next => subscribes f next
  end.

(** *** The traps as the other copy of the class writes them

    In the copy of [main.js] whose [addToQueue] and [emitQueued] are
    private, the traps do not go through [amendState] and [pruneState]:
    they test, record the baseline, commit and queue in one body, on the
    object [state] the proxy hands them, which is the source. *)
Definition inline_set (k : key) (v : value) (w : world) : world * bool :=
  if Object_is (Reflect_get (heap w !!! target w) k) v then (w, true)
  else
    let w1 := if negb (queuedUpdateNotice w) then capture w else w in
    let '(w2, result) :=
      store (target w1) (Reflect_set (heap w1 !!! target w1) k v) w1 in
    (if result then addToQueue (target w2) w2 else w2, result).

Definition inline_deleteProperty (k : key) (w : world) : world * bool :=
  if negb (Object_hasOwn (heap w !!! target w) k) then (w, true)
  else
    let w1 := if negb (queuedUpdateNotice w) then capture w else w in
    let '(w2, result) :=
      store (target w1) (Reflect_deleteProperty (heap w1 !!! target w1) k) w1 in
    (if result then addToQueue (target w2) w2 else w2, result).

(** * Lemmas *)

(** ** Objects: same-value, freezing, copying *)

Lemma Number_sameValue_eq x y : Number_sameValue x y = true ↔ x = y.
Proof.
  destruct x as [s1| s1| |s1 m1 e1], y as [s2| s2| |s2 m2 e2]; simpl;
    try (split; [discriminate | congruence]); try done.
  - rewrite Bool.eqb_true_iff. split; congruence.
  - rewrite Bool.eqb_true_iff. split; congruence.
  - rewrite !andb_true_iff, Bool.eqb_true_iff, Pos.eqb_eq, Z.eqb_eq.
    split; [intros [[-> ->] ->]; done | intros [= -> -> ->]; done].
Qed.

(** [Object.is] decides equality of values. *)
Lemma Object_is_eq x y : Object_is x y = true ↔ x = y.
Proof.
  destruct x, y; simpl; try (split; [discriminate | congruence]); try done.
  - rewrite Bool.eqb_true_iff. split; congruence.
  - rewrite Number_sameValue_eq. split; congruence.
  - rewrite Z.eqb_eq. split; congruence.
  - rewrite bool_decide_eq_true. split; congruence.
  - rewrite Pos.eqb_eq. split; congruence.
  - rewrite bool_decide_eq_true. split; congruence.
Qed.

Lemma Object_is_refl x : Object_is x x = true.
Proof. by apply Object_is_eq. Qed.

Lemma Object_is_sym x y : Object_is x y = Object_is y x.
Proof.
  destruct (Object_is x y) eqn:E, (Object_is y x) eqn:F; try done.
  - apply Object_is_eq in E. subst. by rewrite Object_is_refl in F.
  - apply Object_is_eq in F. subst. by rewrite Object_is_refl in E.
Qed.

Lemma Object_isFrozen_freeze o : Object_isFrozen (Object_freeze o) = true.
Proof.
  unfold Object_isFrozen, Object_freeze. simpl.
  apply bool_decide_eq_true. intros k p. rewrite lookup_fmap.
  destruct (props o !! k); simpl; [intros [= <-]; done | done].
Qed.

Lemma frozen_property o k p :
  Object_isFrozen o = true → props o !! k = Some p →
  p_writable p = false ∧ p_configurable p = false.
Proof.
  unfold Object_isFrozen. rewrite andb_true_iff, bool_decide_eq_true.
  intros [_ H] Hk. exact (H k p Hk).
Qed.

(** A frozen object refuses every assignment and stays as it is. *)
Lemma Reflect_set_frozen o k v :
  Object_isFrozen o = true → Reflect_set o k v = (o, false).
Proof.
  intros H. unfold Reflect_set. destruct (props o !! k) as [p|] eqn:E.
  - destruct (frozen_property o k p H E) as [-> _]. done.
  - unfold Object_isFrozen in H. apply andb_true_iff in H as [H _].
    apply negb_true_iff in H. by rewrite H.
Qed.

(** A frozen object refuses to give up a property it has. *)
Lemma Reflect_deleteProperty_frozen o k :
  Object_isFrozen o = true →
  Reflect_deleteProperty o k = (o, negb (Object_hasOwn o k)).
Proof.
  intros H. unfold Reflect_deleteProperty, Object_hasOwn.
  destruct (props o !! k) as [p|] eqn:E; [|done].
  destruct (frozen_property o k p H E) as [_ ->]. done.
Qed.

(** The default object (what a dangling location reads as) is not frozen. *)
Lemma frozen_allocated (h : list object) l :
  Object_isFrozen (h !!! l) = true → l < length h.
Proof.
  intros H. destruct (decide (l < length h)) as [|Hge]; [done|].
  rewrite list_lookup_total_alt, (lookup_ge_None_2 h l) in H by lia. done.
Qed.

Lemma record_of_spread o : record_of (spread o) = record_of o.
Proof.
  unfold record_of, spread. simpl. apply map_eq. intros k.
  rewrite !lookup_omap. destruct (props o !! k) as [p|]; simpl; [|done].
  by destruct (p_enumerable p).
Qed.

Lemma record_of_freeze o : record_of (Object_freeze o) = record_of o.
Proof.
  unfold record_of, Object_freeze. simpl. apply map_eq. intros k.
  rewrite !lookup_omap, lookup_fmap. by destruct (props o !! k).
Qed.

Lemma record_of_snapshot o : record_of (Object_freeze (spread o)) = record_of o.
Proof. by rewrite record_of_freeze, record_of_spread. Qed.

(** Reading a key of a snapshot: the value recorded for it, if any. *)
Lemma Reflect_get_snapshot o k :
  Reflect_get (Object_freeze (spread o)) k = default VUndefined (record_of o !! k).
Proof.
  unfold Reflect_get, Object_freeze, spread, record_of. simpl.
  rewrite lookup_fmap, !lookup_omap.
  destruct (props o !! k) as [p|]; simpl; [|done].
  by destruct (p_enumerable p).
Qed.

Lemma record_of_lookup o k :
  record_of o !! k =
    match props o !! k with
    | Some p => if p_enumerable p then Some (p_value p) else None
    | None => None
    end.
Proof. unfold record_of. rewrite lookup_omap. by destruct (props o !! k). Qed.

Lemma spread_idem o : spread (spread o) = spread o.
Proof.
  unfold spread. simpl. f_equal. apply map_eq. intros k.
  rewrite !lookup_omap. destruct (props o !! k) as [p|]; simpl; [|done].
  by destruct (p_enumerable p).
Qed.

(** A refused [Reflect] operation leaves the object as it was. *)
Lemma Reflect_set_refused o k v : (Reflect_set o k v).2 = false → (Reflect_set o k v).1 = o.
Proof.
  unfold Reflect_set. destruct (props o !! k) as [p|].
  - by destruct (p_writable p).
  - by destruct (extensible o).
Qed.

Lemma Reflect_deleteProperty_refused o k :
  (Reflect_deleteProperty o k).2 = false → (Reflect_deleteProperty o k).1 = o.
Proof.
  unfold Reflect_deleteProperty. destruct (props o !! k) as [p|]; [|done].
  by destruct (p_configurable p).
Qed.

(** ** The heap *)

Lemma set_heap_id w : set_heap (heap w) w = w.
Proof. by destruct w. Qed.

Lemma insert_total_id (h : list object) l : <[l := h !!! l]> h = h.
Proof.
  destruct (decide (l < length h)).
  - apply list_insert_id. by apply list_lookup_lookup_total_lt.
  - apply list_insert_ge. lia.
Qed.

Lemma lookup_total_insert_eq (h : list object) l o :
  l < length h → <[l := o]> h !!! l = o.
Proof.
  intros H. rewrite list_lookup_total_alt, list_lookup_insert_eq by done. done.
Qed.

Lemma lookup_total_insert_ne (h : list object) l l' o :
  l ≠ l' → <[l := o]> h !!! l' = h !!! l'.
Proof.
  intros H. by rewrite !list_lookup_total_alt, list_lookup_insert_ne.
Qed.

Lemma lookup_total_snoc_old (h : list object) l o :
  l < length h → (h ++ [o]) !!! l = h !!! l.
Proof. intros H. by rewrite !list_lookup_total_alt, lookup_app_l. Qed.

Lemma lookup_total_snoc_new (h : list object) o : (h ++ [o]) !!! length h = o.
Proof. by rewrite list_lookup_total_alt, list_lookup_middle. Qed.

(** Writing to a frozen object changes nothing at all. *)
Lemma store_set_frozen l k v w :
  Object_isFrozen (heap w !!! l) = true →
  store l (Reflect_set (heap w !!! l) k v) w = (w, false).
Proof.
  intros H. rewrite Reflect_set_frozen by done. unfold store. simpl.
  by rewrite insert_total_id, set_heap_id.
Qed.

Lemma store_delete_frozen l k w :
  Object_isFrozen (heap w !!! l) = true →
  store l (Reflect_deleteProperty (heap w !!! l) k) w =
    (w, negb (Object_hasOwn (heap w !!! l) k)).
Proof.
  intros H. rewrite Reflect_deleteProperty_frozen by done. unfold store. simpl.
  by rewrite insert_total_id, set_heap_id.
Qed.

(** ** Steps that leave the scheduler alone *)

Lemma quiet_refl w : quiet w w.
Proof.
  repeat split. exists (heap w !!! target w). by rewrite insert_total_id.
Qed.

Lemma quiet_trans w1 w2 w3 : quiet w1 w2 → quiet w2 w3 → quiet w1 w3.
Proof.
  intros (Hq & Hm & Hp & Ht & o & Ho) (Hq' & Hm' & Hp' & Ht' & o' & Ho').
  repeat split; try congruence.
  exists o'. by rewrite Ho', Ho, Ht, list_insert_insert_eq.
Qed.

Lemma quiet_length w w' : quiet w w' → length (heap w') = length (heap w).
Proof. intros (_ & _ & _ & _ & o & ->). by rewrite length_insert. Qed.

Lemma quiet_other w w' l : quiet w w' → l ≠ target w → heap w' !!! l = heap w !!! l.
Proof.
  intros (_ & _ & _ & _ & o & ->) H. by rewrite lookup_total_insert_ne.
Qed.

Lemma quiet_well_formed w w' : quiet w w' → well_formed w → well_formed w'.
Proof.
  intros Hq [H1 H2]. pose proof (quiet_length _ _ Hq) as Hl.
  destruct Hq as (_ & _ & Hp & Ht & _). unfold well_formed. rewrite Hp, Ht, Hl. done.
Qed.

Lemma store_target_quiet r w : quiet w (store (target w) r w).1.
Proof. repeat split. by exists r.1. Qed.

Lemma set_subscribers_quiet s w : quiet w (set_subscribers s w).
Proof. exact (quiet_refl w). Qed.

Lemma amendState_pending k v w :
  queuedUpdateNotice w = true → quiet w (amendState k v w).1.
Proof.
  intros H. unfold amendState. rewrite H. simpl.
  destruct (Object_is _ _); [apply quiet_refl | apply store_target_quiet].
Qed.

Lemma pruneState_pending k w :
  queuedUpdateNotice w = true → quiet w (pruneState k w).1.
Proof.
  intros H. unfold pruneState. rewrite H. simpl.
  destruct (negb _); [apply quiet_refl | apply store_target_quiet].
Qed.

Lemma addToQueue_pending l w : queuedUpdateNotice w = true → addToQueue l w = w.
Proof. intros H. unfold addToQueue. by rewrite H. Qed.

Lemma agent_set_pending k v w :
  queuedUpdateNotice w = true → quiet w (agent_set k v w).1.
Proof.
  intros H. pose proof (amendState_pending k v w H) as Hq.
  unfold agent_set. destruct (amendState k v w) as [w1 r]. simpl in *.
  destruct (_ && _); [|done].
  rewrite addToQueue_pending; [done|]. destruct Hq as (-> & _). done.
Qed.

Lemma agent_deleteProperty_pending k w :
  queuedUpdateNotice w = true → quiet w (agent_deleteProperty k w).1.
Proof.
  intros H. pose proof (pruneState_pending k w H) as Hq.
  unfold agent_deleteProperty. destruct (pruneState k w) as [w1 r]. simpl in *.
  destruct (_ && _); [|done].
  rewrite addToQueue_pending; [done|]. destruct Hq as (-> & _). done.
Qed.

(** The traps and the two methods under them never touch the subscribers
    nor the record of calls. *)
Lemma amendState_frame k v w :
  subscribers (amendState k v w).1 = subscribers w ∧
  calls (amendState k v w).1 = calls w ∧
  target (amendState k v w).1 = target w.
Proof.
  unfold amendState. destruct (Object_is _ _); [done|].
  by destruct (negb (queuedUpdateNotice w)).
Qed.

Lemma pruneState_frame k w :
  subscribers (pruneState k w).1 = subscribers w ∧
  calls (pruneState k w).1 = calls w ∧
  target (pruneState k w).1 = target w.
Proof.
  unfold pruneState. destruct (negb (Object_hasOwn _ _)); [done|].
  by destruct (negb (queuedUpdateNotice w)).
Qed.

Lemma addToQueue_frame l w :
  subscribers (addToQueue l w) = subscribers w ∧
  calls (addToQueue l w) = calls w ∧
  target (addToQueue l w) = target w ∧
  heap (addToQueue l w) = heap w ∧
  preBatchStaleState (addToQueue l w) = preBatchStaleState w.
Proof. unfold addToQueue. by destruct (queuedUpdateNotice w). Qed.

Lemma agent_set_frame k v w :
  subscribers (agent_set k v w).1 = subscribers w ∧
  calls (agent_set k v w).1 = calls w ∧
  target (agent_set k v w).1 = target w.
Proof.
  pose proof (amendState_frame k v w) as (H1 & H2 & H3).
  unfold agent_set. destruct (amendState k v w) as [w1 r]. simpl in *.
  destruct (_ && _); [|done].
  pose proof (addToQueue_frame (target w1) w1) as (-> & -> & -> & _). done.
Qed.

Lemma agent_deleteProperty_frame k w :
  subscribers (agent_deleteProperty k w).1 = subscribers w ∧
  calls (agent_deleteProperty k w).1 = calls w ∧
  target (agent_deleteProperty k w).1 = target w.
Proof.
  pose proof (pruneState_frame k w) as (H1 & H2 & H3).
  unfold agent_deleteProperty. destruct (pruneState k w) as [w1 r]. simpl in *.
  destruct (_ && _); [|done].
  pose proof (addToQueue_frame (target w1) w1) as (-> & -> & -> & _). done.
Qed.

(** ** Subscribers at work *)

Lemma delivering_quiet lf ls w w' : quiet w w' → delivering lf ls w → delivering lf ls w'.
Proof.
  intros Hq (H1 & H2 & H3 & H4 & H5).
  pose proof (quiet_other _ _ lf Hq H4) as E1.
  pose proof (quiet_other _ _ ls Hq H5) as E2.
  destruct Hq as (Hq & _ & _ & Ht & _).
  unfold delivering. rewrite Hq, Ht, E1, E2. done.
Qed.

Lemma delivering_arg lf ls a w :
  delivering lf ls w → Object_isFrozen (heap w !!! arg_loc lf ls a) = true.
Proof. intros (_ & H2 & H3 & _). by destruct a. Qed.

Lemma delivering_set_calls lf ls c w :
  delivering lf ls w → delivering lf ls (set_calls c w).
Proof. done. Qed.

(** A script never calls a subscriber and never replaces the target. *)
Lemma run_script_frame lf ls s : ∀ w,
  calls (run_script lf ls s w).1 = calls w ∧
  target (run_script lf ls s w).1 = target w.
Proof.
  induction s as [| e | k next IH | k v next IH | k next IH | k v next IH
                 | k next IH | f next IH | f next IH | next IH
                 | a k next IH | a k v next IH | a k next IH]; intros w; simpl.
  - done.
  - done.
  - apply IH.
  - pose proof (agent_set_frame k v w) as (_ & H2 & H3).
    destruct (agent_set k v w) as [w1 r]. simpl in *.
    destruct (IH r w1) as [-> ->]. done.
  - pose proof (agent_deleteProperty_frame k w) as (_ & H2 & H3).
    destruct (agent_deleteProperty k w) as [w1 r]. simpl in *.
    destruct (IH r w1) as [-> ->]. done.
  - pose proof (amendState_frame k v w) as (_ & H2 & H3).
    destruct (amendState k v w) as [w1 r]. simpl in *.
    destruct (IH r w1) as [-> ->]. done.
  - pose proof (pruneState_frame k w) as (_ & H2 & H3).
    destruct (pruneState k w) as [w1 r]. simpl in *.
    destruct (IH r w1) as [-> ->]. done.
  - destruct (IH (subscribe f w)) as [-> ->]. done.
  - destruct (IH (unsubscribe f w)) as [-> ->]. done.
  - destruct (IH (unsubscribeAll w)) as [-> ->]. done.
  - apply IH.
  - match goal with |- context [run_script _ _ (next ?r) ?w1] =>
      destruct (IH r w1) as [-> ->] end. done.
  - match goal with |- context [run_script _ _ (next ?r) ?w1] =>
      destruct (IH r w1) as [-> ->] end. done.
Qed.

(** Whatever a subscriber does while it is being notified, it leaves the
    flag, the queue and the baseline as they are. *)
Lemma run_script_quiet lf ls s : ∀ w,
  delivering lf ls w → quiet w (run_script lf ls s w).1.
Proof.
  induction s as [| e | k next IH | k v next IH | k next IH | k v next IH
                 | k next IH | f next IH | f next IH | next IH
                 | a k next IH | a k v next IH | a k next IH]; intros w D; simpl.
  - apply quiet_refl.
  - apply quiet_refl.
  - by apply IH.
  - pose proof (agent_set_pending k v w (proj1 D)) as Hq.
    destruct (agent_set k v w) as [w1 r]. simpl in *.
    eapply quiet_trans; [exact Hq|]. apply IH. by eapply delivering_quiet.
  - pose proof (agent_deleteProperty_pending k w (proj1 D)) as Hq.
    destruct (agent_deleteProperty k w) as [w1 r]. simpl in *.
    eapply quiet_trans; [exact Hq|]. apply IH. by eapply delivering_quiet.
  - pose proof (amendState_pending k v w (proj1 D)) as Hq.
    destruct (amendState k v w) as [w1 r]. simpl in *.
    eapply quiet_trans; [exact Hq|]. apply IH. by eapply delivering_quiet.
  - pose proof (pruneState_pending k w (proj1 D)) as Hq.
    destruct (pruneState k w) as [w1 r]. simpl in *.
    eapply quiet_trans; [exact Hq|]. apply IH. by eapply delivering_quiet.
  - eapply quiet_trans; [|by apply IH]. apply set_subscribers_quiet.
  - eapply quiet_trans; [|by apply IH]. apply set_subscribers_quiet.
  - eapply quiet_trans; [|by apply IH]. apply set_subscribers_quiet.
  - by apply IH.
  - rewrite Reflect_set_frozen by (by apply delivering_arg). simpl.
    rewrite insert_total_id, set_heap_id. by apply IH.
  - rewrite Reflect_deleteProperty_frozen by (by apply delivering_arg). simpl.
    rewrite insert_total_id, set_heap_id. by apply IH.
Qed.

Section Delivery.

Variable body : fn → script.

(** The loop of [emitQueued], whatever the subscribers do and however it
    ends: the scheduler is left alone and every call made passes the same
    two frozen objects. *)
Lemma for_of_subscribers_quiet lf ls fuel : ∀ i w,
  delivering lf ls w →
  let w' := (for_of_subscribers body fuel i lf ls w).1 in
  quiet w w' ∧ ∃ cs, calls w' = calls w ++ cs ∧ calls_with lf ls cs.
Proof.
  induction fuel as [|fuel IH]; intros i w D; simpl.
  - split; [apply quiet_refl|]. exists []. split; [by rewrite app_nil_r | constructor].
  - destruct (subscribers w !! i) as [[f|]|] eqn:E.
    + set (w1 := set_calls (calls w ++ [(f, lf, ls)]) w).
      pose proof (run_script_quiet lf ls (body f) w1 D) as Hq.
      pose proof (run_script_frame lf ls (body f) w1) as [Hc _].
      destruct (run_script lf ls (body f) w1) as [w2 out]. simpl in *.
      assert (quiet w w2) as Hq' by exact Hq.
      assert (delivering lf ls w2) as D2 by (eapply delivering_quiet; [exact Hq'|done]).
      assert (calls w2 = calls w ++ [(f, lf, ls)]) as Hc2 by exact Hc.
      destruct out.
      * destruct (IH (S i) w2 D2) as (Hq3 & cs & Hcs & Hall).
        split; [by eapply quiet_trans|].
        exists ((f, lf, ls) :: cs). split.
        -- rewrite Hcs, Hc2, <- app_assoc. done.
        -- by constructor.
      * split; [done|]. exists [(f, lf, ls)]. split; [done|]. by repeat constructor.
      * split; [done|]. exists [(f, lf, ls)]. split; [done|]. by repeat constructor.
    + by apply IH.
    + split; [apply quiet_refl|]. exists []. split; [by rewrite app_nil_r | constructor].
Qed.

(** One flush, whatever the subscribers do and however it ends.  The two
    objects handed out are new, they are frozen copies of the objects
    [update] and [#preBatchStaleState] as they were when the flush began,
    no job is added to the queue, and the flag and the baseline are reset
    exactly when the loop returns normally. *)
Lemma run_job_spec fuel update w :
  well_formed w → queuedUpdateNotice w = true →
  let lf := length (heap w) in
  let ls := S (length (heap w)) in
  let w' := (run_job body fuel (FlushJob update) w).1 in
  microtasks w' = microtasks w ∧ target w' = target w ∧ well_formed w' ∧
  heap w' !!! lf = Object_freeze (spread (heap w !!! update)) ∧
  heap w' !!! ls = Object_freeze (spread (heap w !!! preBatchStaleState w)) ∧
  (∃ cs, calls w' = calls w ++ cs ∧ calls_with lf ls cs) ∧
  match (run_job body fuel (FlushJob update) w).2 with
  | Normal =>
      queuedUpdateNotice w' = false ∧
      preBatchStaleState w' = S (S (length (heap w))) ∧
      heap w' !!! preBatchStaleState w' = empty_object
  | _ => queuedUpdateNotice w' = true ∧ preBatchStaleState w' = preBatchStaleState w
  end.
Proof.
  intros [Ht Hp] Hq. cbv zeta.
  unfold run_job, emitQueued, alloc. simpl.
  rewrite (lookup_total_snoc_old (heap w)) by done.
  rewrite List.last_length.
  set (lf := length (heap w)). set (ls := S lf).
  set (ff := Object_freeze (spread (heap w !!! update))).
  set (fs := Object_freeze (spread (heap w !!! preBatchStaleState w))).
  set (w2 := set_heap ((heap w ++ [ff]) ++ [fs]) (set_heap (heap w ++ [ff]) w)).
  assert (length (heap w2) = S (S lf)) as Hl.
  { unfold w2. simpl. by rewrite !List.last_length. }
  assert (heap w2 !!! lf = ff) as Hf.
  { unfold w2. simpl.
    rewrite lookup_total_snoc_old by (rewrite List.last_length; unfold lf; lia).
    apply lookup_total_snoc_new. }
  assert (heap w2 !!! ls = fs) as Hs.
  { unfold w2, ls, lf. simpl. rewrite <- (List.last_length (heap w) ff).
    apply lookup_total_snoc_new. }
  assert (delivering lf ls w2) as D.
  { unfold delivering. rewrite Hf, Hs. unfold ff, fs.
    rewrite !Object_isFrozen_freeze. unfold w2, ls, lf. simpl.
    repeat split; try done; lia. }
  destruct (for_of_subscribers_quiet lf ls fuel 0 w2 D) as (Q & cs & Hcs & Hall).
  pose proof (quiet_length _ _ Q) as Hl'. rewrite Hl in Hl'.
  pose proof (quiet_other _ _ lf Q (proj1 (proj2 (proj2 (proj2 D))))) as Hf'.
  pose proof (quiet_other _ _ ls Q (proj2 (proj2 (proj2 (proj2 D))))) as Hs'.
  rewrite Hf in Hf'. rewrite Hs in Hs'.
  destruct Q as (Q1 & Q2 & Q3 & Q4 & _).
  destruct (for_of_subscribers body fuel 0 lf ls w2) as [w3 out].
  cbn [fst snd] in *.
  assert (well_formed w3) as W3.
  { unfold well_formed. rewrite Q3, Q4, Hl'. unfold w2, lf. simpl. lia. }
  assert (microtasks w3 = microtasks w) as M3 by (by rewrite Q2).
  assert (target w3 = target w) as T3 by (by rewrite Q4).
  assert (∃ cs, calls w3 = calls w ++ cs ∧ calls_with lf ls cs) as C3
    by (by exists cs).
  destruct out; cbn [fst snd]; simpl.
  - split_and!; try done.
    + destruct W3. unfold well_formed. simpl. rewrite List.last_length. lia.
    + rewrite lookup_total_snoc_old by lia. done.
    + rewrite lookup_total_snoc_old by (unfold ls; lia). done.
    + apply lookup_total_snoc_new.
  - split_and!; try done. by rewrite Q1.
  - split_and!; try done. by rewrite Q1.
Qed.

Lemma set_calls_id w : set_calls (calls w) w = w.
Proof. by destruct w. Qed.

Lemma drop_cons_inv {A} (l : list A) i x r :
  drop i l = x :: r → l !! i = Some x ∧ drop (S i) l = r.
Proof.
  intros H. split.
  - rewrite <- (Nat.add_0_r i), <- lookup_drop, H. done.
  - replace (S i) with (i + 1) by lia. rewrite <- drop_drop, H. done.
Qed.

(** The loop over a stretch of subscribers that return at once. *)
Lemma for_of_subscribers_returning lf ls pre : ∀ fuel i w rest,
  drop i (subscribers w) = pre ++ rest →
  (∀ g, Some g ∈ pre → body g = Return) →
  for_of_subscribers body (length pre + fuel) i lf ls w =
  for_of_subscribers body fuel (i + length pre) lf ls
    (set_calls (calls w ++ ((λ g, (g, lf, ls)) <$> active pre)) w).
Proof.
  induction pre as [|x pre IH]; intros fuel i w rest Hd Hp.
  - simpl. by rewrite Nat.add_0_r, app_nil_r, set_calls_id.
  - apply drop_cons_inv in Hd as [Hi Hd]. simpl. rewrite Hi.
    replace (i + S (length pre)) with (S i + length pre) by lia.
    destruct x as [g|].
    + rewrite (Hp g) by left. simpl.
      rewrite (IH fuel (S i) _ rest); [|done|intros; apply Hp; by right].
      simpl. by rewrite <- app_assoc.
    + rewrite (IH fuel (S i) w rest); [done|done|intros; apply Hp; by right].
Qed.

(** All subscribers return at once: each one is called exactly once. *)
Lemma for_of_subscribers_passive lf ls fuel w :
  (∀ g, Some g ∈ subscribers w → body g = Return) →
  length (subscribers w) < fuel →
  for_of_subscribers body fuel 0 lf ls w =
    (set_calls (calls w ++ ((λ g, (g, lf, ls)) <$> active (subscribers w))) w, Normal).
Proof.
  intros Hp Hf.
  replace fuel with (length (subscribers w) + S (fuel - S (length (subscribers w)))) by lia.
  rewrite (for_of_subscribers_returning lf ls (subscribers w) _ 0 w []);
    [|by rewrite app_nil_r|done].
  simpl. rewrite lookup_ge_None_2; done.
Qed.

(** A subscriber that throws ends the loop: the entries after it are not
    called. *)
Lemma for_of_subscribers_thrower lf ls fuel w pre f post e :
  subscribers w = pre ++ Some f :: post →
  (∀ g, Some g ∈ pre → body g = Return) →
  length pre < fuel →
  let w1 := set_calls (calls w ++ ((λ g, (g, lf, ls)) <$> active pre) ++ [(f, lf, ls)]) w in
  (run_script lf ls (body f) w1).2 = Thrown e →
  for_of_subscribers body fuel 0 lf ls w = ((run_script lf ls (body f) w1).1, Thrown e).
Proof.
  intros Hs Hp Hf w1 Ht.
  replace fuel with (length pre + S (fuel - S (length pre))) by lia.
  rewrite (for_of_subscribers_returning lf ls pre _ 0 w (Some f :: post)); [|done|done].
  simpl. rewrite Hs, list_lookup_middle by done. simpl.
  rewrite <- app_assoc.
  change (set_calls _ (set_calls _ w)) with w1.
  destruct (run_script lf ls (body f) w1) as [w2 out]. simpl in *. by subst out.
Qed.

End Delivery.

(** ** Mutations through the live view *)

Lemma reflect_op_refused m o : (reflect_op m o).2 = false → (reflect_op m o).1 = o.
Proof. destruct m; [apply Reflect_set_refused | apply Reflect_deleteProperty_refused]. Qed.

(** A mutation while no flush is pending, trap and method together. *)
Lemma mutate_idle m w :
  target w < length (heap w) → queuedUpdateNotice w = false →
  mutate m w =
    if hadChange m w then
      let r := reflect_op m (heap w !!! target w) in
      let w1 := (store (target w) r (capture w)).1 in
      (if r.2 then addToQueue (target w) w1 else w1, r.2)
    else (w, true).
Proof.
  intros Ht Hq. destruct m as [k v|k]; simpl.
  - unfold agent_set, amendState. rewrite Hq. simpl.
    destruct (Object_is _ _); simpl; [done|].
    rewrite lookup_total_snoc_old by done. done.
  - unfold agent_deleteProperty, pruneState. rewrite Hq. simpl.
    destruct (Object_hasOwn _ _); simpl; [|done].
    rewrite lookup_total_snoc_old by done. done.
Qed.

(** A mutation while a flush is pending. *)
Lemma mutate_pending m w : queuedUpdateNotice w = true → quiet w (mutate m w).1.
Proof.
  destruct m; [apply agent_set_pending | apply agent_deleteProperty_pending].
Qed.

Lemma mutate_frame m w :
  subscribers (mutate m w).1 = subscribers w ∧
  calls (mutate m w).1 = calls w ∧
  target (mutate m w).1 = target w.
Proof. destruct m; [apply agent_set_frame | apply agent_deleteProperty_frame]. Qed.

Lemma mutate_all_pending ms : ∀ w,
  queuedUpdateNotice w = true → quiet w (mutate_all ms w).
Proof.
  induction ms as [|m ms IH]; intros w H; simpl; [apply quiet_refl|].
  pose proof (mutate_pending m w H) as Hq.
  eapply quiet_trans; [exact Hq|]. apply IH. destruct Hq as (-> & _). done.
Qed.

Lemma mutate_all_frame ms : ∀ w,
  subscribers (mutate_all ms w) = subscribers w ∧
  calls (mutate_all ms w) = calls w ∧
  target (mutate_all ms w) = target w.
Proof.
  induction ms as [|m ms IH]; intros w; simpl; [done|].
  destruct (IH (mutate m w).1) as (-> & -> & ->). apply mutate_frame.
Qed.

Lemma all_any_change_worthy ms w :
  ms ≠ [] → all_change_worthy ms w = true → any_change_worthy ms w = true.
Proof.
  destruct ms as [|m ms]; [done|]. simpl. intros _ H.
  apply andb_true_iff in H as [-> _]. done.
Qed.

(** What a change-worthy mutation leaves behind when no flush was pending:
    the copy taken before the change as the baseline, the changed target,
    one more job in the queue. *)
Lemma mutate_idle_worthy m w :
  target w < length (heap w) → queuedUpdateNotice w = false →
  change_worthy m w = true →
  let w' := (mutate m w).1 in
  queuedUpdateNotice w' = true ∧
  microtasks w' = microtasks w ++ [FlushJob (target w)] ∧
  preBatchStaleState w' = length (heap w) ∧
  length (heap w') = S (length (heap w)) ∧
  heap w' !!! preBatchStaleState w' = spread (heap w !!! target w) ∧
  heap w' !!! target w = (reflect_op m (heap w !!! target w)).1.
Proof.
  intros Ht Hq Hw. unfold change_worthy in Hw. cbv zeta.
  rewrite mutate_idle in * by done.
  destruct (hadChange m w); [|done]. simpl in *.
  destruct (reflect_op m (heap w !!! target w)) as [o r]. simpl in *. subst r.
  unfold addToQueue. simpl. rewrite Hq. simpl.
  rewrite length_insert, List.last_length.
  split_and!; try done.
  - rewrite lookup_total_insert_ne by lia. apply lookup_total_snoc_new.
  - rewrite lookup_total_insert_eq by (rewrite List.last_length; lia). done.
Qed.

(** What any other mutation leaves behind when no flush was pending: the
    target as it was, nothing queued. *)
Lemma mutate_idle_unworthy m w :
  target w < length (heap w) → queuedUpdateNotice w = false →
  change_worthy m w = false →
  let w' := (mutate m w).1 in
  queuedUpdateNotice w' = false ∧
  microtasks w' = microtasks w ∧
  target w' < length (heap w') ∧
  heap w' !!! target w' = heap w !!! target w.
Proof.
  intros Ht Hq Hw. unfold change_worthy in Hw. cbv zeta.
  rewrite mutate_idle in * by done.
  destruct (hadChange m w); [|done]. simpl in *.
  pose proof (reflect_op_refused m (heap w !!! target w) Hw) as Ho.
  destruct (reflect_op m (heap w !!! target w)) as [o r]. simpl in *. subst r o. simpl.
  rewrite length_insert, List.last_length.
  split_and!; try done; [lia|].
  rewrite lookup_total_insert_eq by (rewrite List.last_length; lia). done.
Qed.

(** A turn that starts with no flush pending: the scheduler afterwards.
    One job is queued exactly when some mutation was change-worthy, and
    then the baseline is a copy of the target as the turn found it. *)
Lemma mutate_all_idle ms : ∀ w,
  target w < length (heap w) → queuedUpdateNotice w = false →
  let w' := mutate_all ms w in
  if any_change_worthy ms w then
    queuedUpdateNotice w' = true ∧
    microtasks w' = microtasks w ++ [FlushJob (target w)] ∧
    well_formed w' ∧
    heap w' !!! preBatchStaleState w' = spread (heap w !!! target w)
  else
    queuedUpdateNotice w' = false ∧
    microtasks w' = microtasks w ∧
    heap w' !!! target w' = heap w !!! target w.
Proof.
  induction ms as [|m ms IH]; intros w Ht Hq; simpl; [done|].
  destruct (change_worthy m w) eqn:Hw; simpl.
  - destruct (mutate_idle_worthy m w Ht Hq Hw) as (H1 & H2 & H3 & H4 & H5 & H6).
    pose proof (mutate_frame m w) as (_ & _ & H7).
    pose proof (mutate_all_pending ms _ H1) as Q.
    assert (well_formed (mutate m w).1) as W by (unfold well_formed; lia).
    pose proof (quiet_well_formed _ _ Q W) as W'.
    pose proof (quiet_other _ _ (preBatchStaleState (mutate m w).1) Q) as Ho.
    destruct Q as (Q1 & Q2 & Q3 & Q4 & _).
    split_and!; try congruence; try done.
    rewrite Q3, Ho by lia. done.
  - destruct (mutate_idle_unworthy m w Ht Hq Hw) as (H1 & H2 & H3 & H4).
    pose proof (mutate_frame m w) as (_ & _ & H7).
    specialize (IH (mutate m w).1 H3 H1). cbv zeta in IH.
    destruct (any_change_worthy ms (mutate m w).1).
    + destruct IH as (I1 & I2 & I3 & I4). split_and!; try congruence; done.
    + destruct IH as (I1 & I2 & I3). split_and!; congruence.
Qed.

(** ** From the end of a turn to the empty queue *)

Section Flush.

Variable body : fn → script.

#[local] Arguments run_job : simpl never.

(** A single job in the queue: the checkpoint runs it and stops, since a
    flush queues nothing. *)
Lemma run_microtasks_single fuel j w :
  microtasks w = [j] → queuedUpdateNotice w = true → well_formed w →
  run_microtasks body (S fuel) w =
    match (run_job body fuel j (set_microtasks [] w)).2 with
    | OutOfFuel => None
    | _ => match fuel with
           | O => None
           | S _ => Some (run_job body fuel j (set_microtasks [] w)).1
           end
    end.
Proof.
  intros Hm Hq W. simpl. rewrite Hm. destruct j as [update].
  destruct (run_job_spec body fuel update (set_microtasks [] w) W Hq) as (M & _).
  destruct (run_job body fuel (FlushJob update) (set_microtasks [] w)) as [w1 out].
  simpl in *. destruct out, fuel; simpl; try done; by rewrite M.
Qed.

(** The flush when every subscriber returns at once. *)
Lemma run_job_passive fuel update w :
  (∀ g, Some g ∈ subscribers w → body g = Return) →
  length (subscribers w) < fuel →
  (run_job body fuel (FlushJob update) w).2 = Normal ∧
  calls (run_job body fuel (FlushJob update) w).1 =
    calls w ++ ((λ g, (g, length (heap w), S (length (heap w)))) <$> active (subscribers w)) ∧
  subscribers (run_job body fuel (FlushJob update) w).1 = subscribers w.
Proof.
  intros Hp Hf. unfold run_job, emitQueued, alloc. simpl.
  rewrite List.last_length.
  rewrite for_of_subscribers_passive by done. done.
Qed.

(** A turn of mutations, at least one of them change-worthy, that began
    with nothing pending, followed by the checkpoint.  Whatever the
    subscribers do, every call made passes the same two new objects: the
    frozen copy of the target as the turn left it, and the frozen copy of
    the target as the turn found it. *)
Lemma batch_flush ms w fuel w2 :
  target w < length (heap w) →
  queuedUpdateNotice w = false → microtasks w = [] →
  any_change_worthy ms w = true →
  let w1 := mutate_all ms w in
  let lf := length (heap w1) in
  let ls := S (length (heap w1)) in
  run_microtasks body fuel w1 = Some w2 →
  microtasks w2 = [] ∧
  heap w2 !!! lf = Object_freeze (spread (heap w1 !!! target w)) ∧
  heap w2 !!! ls = Object_freeze (spread (heap w !!! target w)) ∧
  ∃ cs, calls w2 = calls w ++ cs ∧ calls_with lf ls cs.
Proof.
  intros Ht Hq Hm Hw w1 lf ls Hr.
  pose proof (mutate_all_idle ms w Ht Hq) as H. cbv zeta in H. rewrite Hw, Hm in H.
  destruct H as (Q1 & M1 & W1 & B1). fold w1 in Q1, M1, W1, B1.
  pose proof (mutate_all_frame ms w) as (_ & C1 & T1). fold w1 in C1, T1.
  destruct fuel as [|fuel]; [done|].
  rewrite (run_microtasks_single fuel _ w1 M1 Q1 W1) in Hr.
  pose proof (run_job_spec body fuel (target w) (set_microtasks [] w1) W1 Q1) as S.
  cbv zeta in S. simpl in S.
  destruct S as (S1 & _ & _ & S4 & S5 & S6 & _).
  rewrite B1, spread_idem in S5. rewrite C1 in S6.
  destruct (run_job body fuel (FlushJob (target w)) (set_microtasks [] w1)) as [w3 out].
  simpl in *. destruct out, fuel; try done; by injection Hr as <-.
Qed.

(** The same when every subscriber returns at once: the checkpoint comes
    to its end, and each subscriber has been called exactly once. *)
Lemma batch_flush_passive ms w fuel :
  target w < length (heap w) →
  queuedUpdateNotice w = false → microtasks w = [] →
  any_change_worthy ms w = true →
  (∀ g, Some g ∈ subscribers w → body g = Return) →
  length (subscribers w) + 2 ≤ fuel →
  let w1 := mutate_all ms w in
  let lf := length (heap w1) in
  let ls := S (length (heap w1)) in
  ∃ w2, run_microtasks body fuel w1 = Some w2 ∧
        calls w2 = calls w ++ ((λ g, (g, lf, ls)) <$> active (subscribers w)).
Proof.
  intros Ht Hq Hm Hw Hp Hf w1 lf ls.
  pose proof (mutate_all_idle ms w Ht Hq) as H. cbv zeta in H. rewrite Hw, Hm in H.
  destruct H as (Q1 & M1 & W1 & B1). fold w1 in Q1, M1, W1, B1.
  pose proof (mutate_all_frame ms w) as (S1 & C1 & T1). fold w1 in S1, C1, T1.
  destruct fuel as [|[|fuel]]; [lia|lia|].
  rewrite (run_microtasks_single (S fuel) _ w1 M1 Q1 W1).
  destruct (run_job_passive (S fuel) (target w) (set_microtasks [] w1)) as (R1 & R2 & _).
  { simpl. by rewrite S1. }
  { simpl. rewrite S1. lia. }
  rewrite R1. eexists. split; [done|]. rewrite R2. simpl. by rewrite C1, S1.
Qed.

End Flush.

(** ** One mutation, in full *)

Lemma heap_addToQueue l w : heap (addToQueue l w) = heap w.
Proof. unfold addToQueue. by destruct (queuedUpdateNotice w). Qed.

Lemma mutate_pending_eq m w :
  queuedUpdateNotice w = true →
  mutate m w =
    if hadChange m w then store (target w) (reflect_op m (heap w !!! target w)) w
    else (w, true).
Proof.
  intros Hq. destruct m as [k v|k]; simpl.
  - unfold agent_set, amendState. rewrite Hq. simpl.
    destruct (Object_is _ _); simpl; [done|].
    rewrite addToQueue_pending by exact Hq. unfold store.
    by destruct (Reflect_set _ _ _).2.
  - unfold agent_deleteProperty, pruneState. rewrite Hq. simpl.
    destruct (Object_hasOwn _ _); simpl; [|done].
    rewrite addToQueue_pending by exact Hq. unfold store.
    by destruct (Reflect_deleteProperty _ _).2.
Qed.

(** The result of a mutation and the target it leaves, pending flush or
    not. *)
Lemma mutate_target m w :
  target w < length (heap w) →
  (mutate m w).2 = (if hadChange m w then (reflect_op m (heap w !!! target w)).2 else true) ∧
  heap (mutate m w).1 !!! target w =
    (if hadChange m w then (reflect_op m (heap w !!! target w)).1 else heap w !!! target w).
Proof.
  intros Ht. destruct (queuedUpdateNotice w) eqn:Hq.
  - rewrite mutate_pending_eq by done. destruct (hadChange m w); [|done]. simpl.
    by rewrite lookup_total_insert_eq.
  - rewrite mutate_idle by done. destruct (hadChange m w); [|done]. cbv zeta.
    destruct (reflect_op m (heap w !!! target w)) as [o r].
    destruct r; cbn [fst snd]; rewrite ?heap_addToQueue; simpl;
      by rewrite lookup_total_insert_eq by (rewrite List.last_length; lia).
Qed.

(** The scheduler after one mutation: a job is added exactly when the
    mutation is change-worthy and nothing was pending. *)
Lemma mutate_microtasks m w :
  target w < length (heap w) →
  microtasks (mutate m w).1 =
    (if change_worthy m w && negb (queuedUpdateNotice w)
     then microtasks w ++ [FlushJob (target w)] else microtasks w) ∧
  queuedUpdateNotice (mutate m w).1 = change_worthy m w || queuedUpdateNotice w.
Proof.
  intros Ht. destruct (queuedUpdateNotice w) eqn:Hq.
  - destruct (mutate_pending m w Hq) as (-> & -> & _).
    by rewrite Hq, andb_false_r, orb_true_r.
  - rewrite andb_true_r, orb_false_r. destruct (change_worthy m w) eqn:Hw.
    + destruct (mutate_idle_worthy m w Ht Hq Hw) as (-> & -> & _). done.
    + destruct (mutate_idle_unworthy m w Ht Hq Hw) as (-> & -> & _). done.
Qed.

(** Objects other than the target are out of reach of a mutation. *)
Lemma mutate_other m w l :
  target w < length (heap w) → l < length (heap w) → l ≠ target w →
  heap (mutate m w).1 !!! l = heap w !!! l ∧
  length (heap w) ≤ length (heap (mutate m w).1).
Proof.
  intros Ht Hl Hne. destruct (queuedUpdateNotice w) eqn:Hq.
  - pose proof (mutate_pending m w Hq) as Q.
    rewrite (quiet_other _ _ l Q Hne), (quiet_length _ _ Q). done.
  - assert (∀ r, heap (store (target w) r (capture w)).1 !!! l = heap w !!! l ∧
                 length (heap w) ≤ length (heap (store (target w) r (capture w)).1)) as H.
    { intros r. simpl. rewrite length_insert, List.last_length.
      rewrite lookup_total_insert_ne by done.
      rewrite lookup_total_snoc_old by done. split; [done|lia]. }
    rewrite mutate_idle by done. destruct (hadChange m w); [|done]. cbv zeta.
    destruct (reflect_op m (heap w !!! target w)).2; cbn [fst snd];
      rewrite ?heap_addToQueue; apply H.
Qed.

Lemma mutate_all_other ms : ∀ w l,
  target w < length (heap w) → l < length (heap w) → l ≠ target w →
  heap (mutate_all ms w) !!! l = heap w !!! l.
Proof.
  induction ms as [|m ms IH]; intros w l Ht Hl Hne; simpl; [done|].
  destruct (mutate_other m w l Ht Hl Hne) as [E L].
  pose proof (mutate_frame m w) as (_ & _ & T).
  rewrite IH; [done|rewrite T; lia|lia|by rewrite T].
Qed.

(** * The properties of the service *)

(** C1 -- single notification per batch.  A turn that starts with no flush
    pending and makes [N >= 1] change-worthy mutations through the live
    view queues exactly one flush, and further mutations queue no other
    while it is pending.  Whatever the subscribers do, every call made
    until the queue is empty passes the same pair: [fresh] shows the
    record after all the changes, [stale] the record before the first.
    When the subscribers simply return, each is called exactly once. *)
Theorem single_notification_per_batch (body : fn → script) ms w :
  well_formed w →
  queuedUpdateNotice w = false → microtasks w = [] →
  ms ≠ [] → all_change_worthy ms w = true →
  let w1 := mutate_all ms w in
  let fresh := length (heap w1) in
  let stale := S (length (heap w1)) in
  microtasks w1 = [FlushJob (target w)] ∧
  (∀ ms', microtasks (mutate_all ms' w1) = microtasks w1) ∧
  (∀ fuel w2, run_microtasks body fuel w1 = Some w2 →
     microtasks w2 = [] ∧
     record_of (heap w2 !!! fresh) = record_of (heap w1 !!! target w1) ∧
     record_of (heap w2 !!! stale) = record_of (heap w !!! target w) ∧
     ∃ cs, calls w2 = calls w ++ cs ∧ calls_with fresh stale cs) ∧
  ((∀ g, Some g ∈ subscribers w → body g = Return) →
   ∀ fuel, length (subscribers w) + 2 ≤ fuel →
     ∃ w2, run_microtasks body fuel w1 = Some w2 ∧
           calls w2 = calls w ++ ((λ g, (g, fresh, stale)) <$> active (subscribers w))).
Proof.
  intros [Ht Hp] Hq Hm Hne Hall w1 fresh stale.
  pose proof (all_any_change_worthy ms w Hne Hall) as Hany.
  pose proof (mutate_all_idle ms w Ht Hq) as H. cbv zeta in H.
  rewrite Hany, Hm in H. destruct H as (Q1 & M1 & W1 & B1).
  pose proof (mutate_all_frame ms w) as (_ & _ & T1).
  split_and!.
  - exact M1.
  - intros ms'. by destruct (mutate_all_pending ms' w1 Q1) as (_ & -> & _).
  - intros fuel w2 Hr.
    destruct (batch_flush body ms w fuel w2 Ht Hq Hm Hany Hr) as (F1 & F2 & F3 & F4).
    subst fresh stale w1.
    split_and!; [done| | |done].
    + by rewrite F2, record_of_snapshot, T1.
    + by rewrite F3, record_of_snapshot.
  - intros Hpass fuel Hfuel.
    exact (batch_flush_passive body ms w fuel Ht Hq Hm Hany Hpass Hfuel).
Qed.

(** The batch of the test-suite: [{a: 1, b: 2}], then [a = 3; b = 4]. *)
Lemma single_notification_per_batch_witness :
  microtasks (mutate_all [Assign a (num 3); Assign b (num 4)] service_ab) = [FlushJob 0].
Proof.
  refine (proj1 (single_notification_per_batch passive
            [Assign a (num 3); Assign b (num 4)] service_ab _ _ _ _ _)).
  - split; vm_compute; lia.
  - reflexivity.
  - reflexivity.
  - discriminate.
  - vm_compute. reflexivity.
Defined.

(** C4 -- no-op stability.  Assigning to a key the value it already has
    under [Object.is] returns [true] and leaves everything as it was:
    nothing queued, the baseline untouched.  [NaN] is the same value as
    [NaN], [+0] is not the same as [-0]. *)
Theorem same_value_assign_is_noop w k v :
  Object_is (Reflect_get (heap w !!! target w) k) v = true →
  agent_set k v w = (w, true) ∧
  amendState k v w = (w, true) ∧
  Object_is NaN NaN = true ∧
  Object_is pos_zero neg_zero = false ∧
  Object_is neg_zero pos_zero = false.
Proof.
  intros H. unfold agent_set, amendState. rewrite H. done.
Qed.

Lemma same_value_assign_is_noop_witness :
  let w := constructor [literal [(a, NaN)]] 0 in
  agent_set a NaN w = (w, true).
Proof.
  refine (proj1 (same_value_assign_is_noop (constructor [literal [(a, NaN)]] 0) a NaN _)).
  vm_compute. reflexivity.
Defined.

(** C9 -- rejected commit.  When the target refuses the write or the
    deletion, the trap and the method under it return [false], the
    target is as it was, and the scheduler is untouched: nothing is
    queued on account of the refused operation. *)
Theorem rejected_commit_returns_false m w :
  target w < length (heap w) →
  hadChange m w = true →
  (reflect_op m (heap w !!! target w)).2 = false →
  (mutate m w).2 = false ∧
  microtasks (mutate m w).1 = microtasks w ∧
  queuedUpdateNotice (mutate m w).1 = queuedUpdateNotice w ∧
  heap (mutate m w).1 !!! target w = heap w !!! target w ∧
  match m with
  | Assign k v => (amendState k v w).2 = false ∧
                  microtasks (amendState k v w).1 = microtasks w
  | Remove k => (pruneState k w).2 = false ∧
                microtasks (pruneState k w).1 = microtasks w
  end.
Proof.
  intros Ht Hc Hr.
  destruct (mutate_target m w Ht) as [R T]. rewrite Hc in R, T.
  destruct (mutate_microtasks m w Ht) as [M Q].
  assert (change_worthy m w = false) as Hw
    by (unfold change_worthy; rewrite R, Hr; apply andb_false_r).
  rewrite Hw in M, Q. simpl in M, Q.
  split_and!; try done.
  - by rewrite R.
  - rewrite T. by apply reflect_op_refused.
  - destruct m as [k v|k]; simpl in *.
    + unfold agent_set in R. unfold amendState in *.
      destruct (Object_is _ _); [done|].
      destruct (queuedUpdateNotice w); simpl in *.
      * by rewrite Hr.
      * rewrite lookup_total_snoc_old by done. by rewrite Hr.
    + unfold pruneState in *.
      destruct (Object_hasOwn _ _); [|done].
      destruct (queuedUpdateNotice w); simpl in *.
      * by rewrite Hr.
      * rewrite lookup_total_snoc_old by done. by rewrite Hr.
Qed.

(** A frozen source: [service.state.a = 2]. *)
Lemma rejected_commit_returns_false_witness :
  (mutate (Assign a (num 2)) frozen_service).2 = false.
Proof.
  refine (proj1 (rejected_commit_returns_false (Assign a (num 2)) frozen_service _ _ _)).
  - vm_compute. lia.
  - vm_compute. reflexivity.
  - vm_compute. reflexivity.
Defined.

(** C10 -- the registry operations touch the subscriber set only: the
    tracked record, the baseline and the flag stay as they are, nothing is
    queued and nobody is called. *)
Theorem registry_operations_frame f w :
  same_but_subscribers w (subscribe f w) ∧
  same_but_subscribers w (unsubscribe f w) ∧
  same_but_subscribers w (unsubscribeAll w).
Proof. done. Qed.

(** The property an accepted assignment leaves under the key. *)
Lemma Reflect_set_accepted o k v :
  (Reflect_set o k v).2 = true →
  props (Reflect_set o k v).1 !! k =
    Some match props o !! k with
         | Some p => Property v true (p_enumerable p) (p_configurable p)
         | None => data v
         end.
Proof.
  unfold Reflect_set. destruct (props o !! k) as [p|].
  - destruct (p_writable p); [|done]. intros _. apply lookup_insert_eq.
  - destruct (extensible o); [|done]. intros _. apply lookup_insert_eq.
Qed.

(** Writing a value to a key and then writing back what the key read
    before: the key reads the same in a copy taken afterwards as in a
    copy taken before. *)
Lemma set_then_revert o k v :
  let o1 := (Reflect_set o k v).1 in
  let o2 := (Reflect_set o1 k (Reflect_get o k)).1 in
  (Reflect_set o k v).2 = true →
  (Reflect_set o1 k (Reflect_get o k)).2 = true →
  Reflect_get (Object_freeze (spread o2)) k = Reflect_get (Object_freeze (spread o)) k.
Proof.
  cbv zeta. intros H1 H2. rewrite !Reflect_get_snapshot, !record_of_lookup.
  rewrite (Reflect_set_accepted _ k _ H2), (Reflect_set_accepted o k v H1).
  unfold Reflect_get. destruct (props o !! k) as [p|]; simpl; [|done].
  by destruct (p_enumerable p).
Qed.

Lemma record_of_delete o k :
  record_of (Obj (delete k (props o)) (extensible o)) = delete k (record_of o).
Proof. unfold record_of. simpl. apply omap_delete. Qed.

(** C5 -- the decision to notify is taken mutation by mutation.  From a
    state with nothing pending, a flush is queued exactly when some
    mutation of the turn was change-worthy at the moment it ran.  In
    particular a write followed by the write that puts the old value
    back queues one flush, although the key then reads the same in
    [fresh] and in [stale]; with subscribers that simply return, each is
    called exactly once. *)
Theorem notify_decided_per_mutation (body : fn → script) w :
  target w < length (heap w) →
  queuedUpdateNotice w = false → microtasks w = [] →
  (∀ ms, microtasks (mutate_all ms w) =
           if any_change_worthy ms w then [FlushJob (target w)] else []) ∧
  (∀ k v,
     let ms := [Assign k v; Assign k (Reflect_get (heap w !!! target w) k)] in
     let w1 := mutate_all ms w in
     let fresh := length (heap w1) in
     let stale := S (length (heap w1)) in
     all_change_worthy ms w = true →
     microtasks w1 = [FlushJob (target w)] ∧
     (∀ fuel w2, run_microtasks body fuel w1 = Some w2 →
        Reflect_get (heap w2 !!! fresh) k = Reflect_get (heap w2 !!! stale) k ∧
        ∃ cs, calls w2 = calls w ++ cs ∧ calls_with fresh stale cs) ∧
     ((∀ g, Some g ∈ subscribers w → body g = Return) →
      ∀ fuel, length (subscribers w) + 2 ≤ fuel →
        ∃ w2, run_microtasks body fuel w1 = Some w2 ∧
              calls w2 = calls w ++ ((λ g, (g, fresh, stale)) <$> active (subscribers w)))).
Proof.
  intros Ht Hq Hm. split.
  - intros ms. pose proof (mutate_all_idle ms w Ht Hq) as H. cbv zeta in H.
    destruct (any_change_worthy ms w).
    + destruct H as (_ & -> & _). by rewrite Hm.
    + destruct H as (_ & -> & _). done.
  - intros k v ms w1 fresh stale Hall.
    assert (any_change_worthy ms w = true) as Hany
      by (by apply all_any_change_worthy).
    pose proof (mutate_all_idle ms w Ht Hq) as H. cbv zeta in H.
    rewrite Hany, Hm in H. destruct H as (_ & M1 & _).
    split_and!; [exact M1| |].
    + intros fuel w2 Hr.
      destruct (batch_flush body ms w fuel w2 Ht Hq Hm Hany Hr) as (_ & F2 & F3 & F4).
      split; [|exact F4]. subst fresh stale w1. rewrite F2, F3. clear F2 F3 F4 Hr.
      subst ms. cbn [all_change_worthy] in Hall.
      set (m1 := Assign k v) in *.
      set (m2 := Assign k (Reflect_get (heap w !!! target w) k)) in *.
      apply andb_true_iff in Hall as [H1 H2]. apply andb_true_iff in H2 as [H2 _].
      unfold change_worthy in H1, H2.
      apply andb_true_iff in H1 as [C1 R1]. apply andb_true_iff in H2 as [C2 R2].
      pose proof (mutate_frame m1 w) as (_ & _ & T1).
      destruct (mutate_target m1 w Ht) as [E1 G1]. rewrite C1 in E1, G1.
      assert (target (mutate m1 w).1 < length (heap (mutate m1 w).1)) as Ht'.
      { destruct (mutate_idle_worthy m1 w Ht Hq) as (_ & _ & _ & L & _).
        - unfold change_worthy. by rewrite C1, R1.
        - rewrite T1, L. lia. }
      destruct (mutate_target m2 (mutate m1 w).1 Ht') as [E2 G2].
      rewrite C2 in E2, G2. rewrite T1 in G2, E2. rewrite G1 in G2, E2.
      cbn [mutate_all]. rewrite G2. subst m1 m2. cbn [reflect_op].
      apply set_then_revert.
      * exact (eq_trans (eq_sym E1) R1).
      * exact (eq_trans (eq_sym E2) R2).
    + intros Hpass fuel Hfuel.
      exact (batch_flush_passive body ms w fuel Ht Hq Hm Hany Hpass Hfuel).
Qed.

(** [{a: 1, b: 2}], then [a = 3; a = 1]. *)
Lemma notify_decided_per_mutation_witness :
  microtasks (mutate_all [Assign a (num 3); Assign a (num 1)] service_ab) = [FlushJob 0].
Proof.
  refine (proj1 (proj2 (notify_decided_per_mutation passive service_ab _ _ _)
                   a (num 3) _)).
  - vm_compute. lia.
  - reflexivity.
  - reflexivity.
  - vm_compute. reflexivity.
Defined.

(** C7, as the code has it -- a changed assignment.  Through the live
    view ([set] trap): when nothing is pending the baseline is first set
    to a new copy of the target as it is before the change, then the
    value is committed, then, if the target accepted it, a flush is
    requested, so that a flush is pending afterwards.  The method
    [amendState] called on its own makes the same copy and the same
    commit and leaves the flag and the queue as they are. *)
Theorem changed_assign_through_view w k v :
  target w < length (heap w) →
  Object_is (Reflect_get (heap w !!! target w) k) v = false →
  let r := Reflect_set (heap w !!! target w) k v in
  let w1 := (agent_set k v w).1 in
  let w2 := (amendState k v w).1 in
  (agent_set k v w).2 = r.2 ∧
  heap w1 !!! target w = r.1 ∧
  (queuedUpdateNotice w = false →
     preBatchStaleState w1 = length (heap w) ∧
     heap w1 !!! preBatchStaleState w1 = spread (heap w !!! target w)) ∧
  (queuedUpdateNotice w = true →
     preBatchStaleState w1 = preBatchStaleState w ∧ microtasks w1 = microtasks w) ∧
  (r.2 = true →
     queuedUpdateNotice w1 = true ∧
     (queuedUpdateNotice w = false →
        microtasks w1 = microtasks w ++ [FlushJob (target w)])) ∧
  (amendState k v w).2 = r.2 ∧
  heap w2 = heap w1 ∧
  preBatchStaleState w2 = preBatchStaleState w1 ∧
  microtasks w2 = microtasks w ∧
  queuedUpdateNotice w2 = queuedUpdateNotice w.
Proof.
  intros Ht Hc. cbv zeta. unfold agent_set, amendState. rewrite Hc.
  destruct (queuedUpdateNotice w) eqn:Hq; simpl.
  - destruct (Reflect_set (heap w !!! target w) k v) as [o res]. simpl.
    rewrite addToQueue_pending by exact Hq.
    assert (∀ A (x : A), (if res then x else x) = x) as Hif by (by destruct res).
    rewrite !Hif. simpl. rewrite lookup_total_insert_eq by done.
    split_and!; done.
  - rewrite lookup_total_snoc_old by done.
    destruct (Reflect_set (heap w !!! target w) k v) as [o res]. simpl.
    unfold addToQueue. simpl. rewrite Hq.
    destruct res; simpl;
      rewrite lookup_total_insert_eq by (rewrite List.last_length; lia);
      rewrite lookup_total_insert_ne by lia;
      rewrite lookup_total_snoc_new; split_and!; done.
Qed.

(** [{a: 1, b: 2}], nothing pending: [service.state.a = 3]. *)
Lemma changed_assign_through_view_witness :
  (agent_set a (num 3) service_ab).2 = (Reflect_set (heap service_ab !!! 0) a (num 3)).2.
Proof.
  refine (proj1 (changed_assign_through_view service_ab a (num 3) _ _)).
  - vm_compute. lia.
  - vm_compute. reflexivity.
Defined.

(** C7, as the specification has it, fails for [amendState] called on
    its own: on [{a: 1, b: 2}] with one subscriber, [amendState("a", 3)]
    changes the value and returns [true], and yet no flush is requested
    and the checkpoint calls nobody. *)
Lemma amendState_requests_no_flush :
  let w := service_ab in
  let w1 := (amendState a (num 3) w).1 in
  Object_is (Reflect_get (heap w !!! target w) a) (num 3) = false ∧
  (amendState a (num 3) w).2 = true ∧
  Reflect_get (heap w1 !!! target w1) a = num 3 ∧
  queuedUpdateNotice w1 = false ∧
  microtasks w1 = [] ∧
  calls <$> run_microtasks passive 5 w1 = Some [].
Proof.
  cbv zeta. repeat split; vm_compute; reflexivity.
Qed.

(** ** The objects handed to the subscribers *)

(** The objects a flush hands out: every call passes two objects that
    were allocated by that flush, distinct from the target and from the
    baseline, and frozen, and an assignment on one of them that returns
    its result is refused and changes nothing in the world. *)
Lemma delivered_objects_are_frozen (body : fn → script) fuel update w :
  well_formed w → queuedUpdateNotice w = true →
  let w' := (run_job body fuel (FlushJob update) w).1 in
  (∃ cs, calls w' = calls w ++ cs ∧
     ∀ f fresh stale, (f, fresh, stale) ∈ cs →
       fresh ≠ stale ∧
       handed_out w w' fresh ∧ handed_out w w' stale ∧
       record_of (heap w' !!! fresh) = record_of (heap w !!! update) ∧
       record_of (heap w' !!! stale) = record_of (heap w !!! preBatchStaleState w)) ∧
  (∀ fresh stale w0 arg k v next,
     delivering fresh stale w0 →
     run_script fresh stale (ArgSet arg k v next) w0 =
       run_script fresh stale (next false) w0).
Proof.
  intros W Hq w'. split.
  - pose proof (run_job_spec body fuel update w W Hq) as S. cbv zeta in S.
    fold w' in S. destruct S as (_ & T & W' & F & G & (cs & Hc & Hall) & O).
    assert (preBatchStaleState w' = preBatchStaleState w ∨
            preBatchStaleState w' = S (S (length (heap w)))) as Hp.
    { destruct (run_job body fuel (FlushJob update) w).2;
        [right; apply O | left; apply O | left; apply O]. }
    assert (∀ l o, heap w' !!! l = Object_freeze o → length (heap w) ≤ l →
                   l ≠ S (S (length (heap w))) → handed_out w w' l) as Hout.
    { intros l o Hl Hge Hne. destruct W as [W1 W2], W' as [W1' W2'].
      assert (Object_isFrozen (heap w' !!! l) = true) as Hfr
        by (rewrite Hl; apply Object_isFrozen_freeze).
      pose proof (frozen_allocated _ _ Hfr) as Hlt.
      unfold handed_out. split_and!; [done|lia|lia|destruct Hp; lia|].
      intros ms. cbv zeta. set (w'' := mutate_all ms w').
      assert (heap w'' !!! l = heap w' !!! l) as E
        by (apply mutate_all_other; [done|done|lia]).
      rewrite E. split_and!; [done|done| |].
      - intros k v. rewrite <- E. apply store_set_frozen. by rewrite E.
      - intros k. rewrite <- E. rewrite store_delete_frozen by (by rewrite E). done. }
    exists cs. split; [done|]. intros f fresh stale Hin.
    unfold calls_with in Hall. rewrite Forall_forall in Hall.
    destruct (Hall _ Hin) as [E1 E2]. simpl in E1, E2. subst fresh stale.
    split_and!.
    + lia.
    + eapply Hout; [exact F|lia|lia].
    + eapply Hout; [exact G|lia|lia].
    + by rewrite F, record_of_snapshot.
    + by rewrite G, record_of_snapshot.
  - intros fresh stale w0 arg k v next D. simpl.
    rewrite Reflect_set_frozen by (by apply delivering_arg). simpl.
    by rewrite insert_total_id, set_heap_id.
Qed.

(** ** Subscribers that mutate, subscribers that throw *)

Lemma run_job_unfold (body : fn → script) fuel update w :
  preBatchStaleState w < length (heap w) →
  run_job body fuel (FlushJob update) w =
    match for_of_subscribers body fuel 0 (length (heap w)) (S (length (heap w)))
            (emit_start update w) with
    | (w1, Normal) =>
        (set_preBatchStaleState (length (heap w1))
           (set_heap (heap w1 ++ [empty_object]) (set_queuedUpdateNotice false w1)),
         Normal)
    | (w1, out) => (w1, out)
    end.
Proof.
  intros Hp. unfold run_job, emitQueued, alloc, emit_start. simpl.
  rewrite List.last_length, lookup_total_snoc_old by done.
  by rewrite <- app_assoc.
Qed.

(** C2, as the code has it -- a mutation made while the subscribers are
    being notified.  The two copies are taken and frozen before the first
    subscriber is called, and the flag is cleared and the baseline reset
    only after the last one has returned.  So a mutation made by a
    subscriber finds the flag set: it is committed to the target, but it
    records no baseline and queues nothing.  The flush, whatever the
    subscribers do, adds no job to the queue, and all its calls pass the
    copies taken before the first call. *)
Theorem mutation_during_delivery (body : fn → script) fuel update w :
  well_formed w → queuedUpdateNotice w = true →
  let w' := (run_job body fuel (FlushJob update) w).1 in
  let fresh := length (heap w) in
  let stale := S (length (heap w)) in
  heap w' !!! fresh = Object_freeze (spread (heap w !!! update)) ∧
  heap w' !!! stale = Object_freeze (spread (heap w !!! preBatchStaleState w)) ∧
  (∃ cs, calls w' = calls w ++ cs ∧ calls_with fresh stale cs) ∧
  (∀ w0 m,
     delivering fresh stale w0 → target w0 < length (heap w0) →
     let w1 := (mutate m w0).1 in
     heap w1 !!! target w0 =
       (if hadChange m w0 then (reflect_op m (heap w0 !!! target w0)).1
        else heap w0 !!! target w0) ∧
     queuedUpdateNotice w1 = true ∧
     microtasks w1 = microtasks w0 ∧
     preBatchStaleState w1 = preBatchStaleState w0 ∧
     delivering fresh stale w1) ∧
  microtasks w' = microtasks w ∧
  ((run_job body fuel (FlushJob update) w).2 = Normal →
     queuedUpdateNotice w' = false ∧
     preBatchStaleState w' = S (S (length (heap w))) ∧
     heap w' !!! preBatchStaleState w' = empty_object).
Proof.
  intros W Hq w' fresh stale.
  pose proof (run_job_spec body fuel update w W Hq) as S. cbv zeta in S.
  fold w' fresh in S. destruct S as (M & _ & _ & F & G & C & O).
  split_and!; try done.
  - intros w0 m D Ht w1.
    pose proof (mutate_pending m w0 (proj1 D)) as Q.
    pose proof (delivering_quiet _ _ _ _ Q D) as D1.
    destruct (mutate_target m w0 Ht) as [_ T].
    destruct Q as (Q1 & Q2 & Q3 & _).
    split_and!; try done. exact (proj1 D1).
  - intros HN. by rewrite HN in O.
Qed.

Lemma mutation_during_delivery_witness :
  microtasks (run_job passive 5 (FlushJob 0) (set_microtasks [] pending_service)).1 = [].
Proof.
  refine (proj1 (proj2 (proj2 (proj2 (proj2
    (mutation_during_delivery passive 5 0 (set_microtasks [] pending_service) _ _)))))).
  - split; vm_compute; lia.
  - reflexivity.
Defined.

(** C2, as the specification has it, fails: on [{a: 1, b: 2}] with the
    subscriber above, [a = 3] leads to one call, with [a: 3] in [fresh].
    In the world in which that subscriber runs, its assignment of [7] to
    [a] is change-worthy, and it leaves the baseline and the queue as
    they are.  When the queue is empty the target has [a: 7], no second
    call has been made and no flush is left to run. *)
Lemma reentrant_mutation_is_swallowed :
  let during :=
    set_calls [(0, 3, 4)] (emit_start 0 (set_microtasks [] pending_service)) in
  let after := run_microtasks reentrant 5 pending_service in
  change_worthy (Assign a (num 7)) during = true ∧
  preBatchStaleState (mutate (Assign a (num 7)) during).1 = preBatchStaleState during ∧
  microtasks (mutate (Assign a (num 7)) during).1 = [] ∧
  calls <$> after = Some [(0, 3, 4)] ∧
  (λ w, Reflect_get (heap w !!! 3) a) <$> after = Some (num 3) ∧
  (λ w, Reflect_get (heap w !!! target w) a) <$> after = Some (num 7) ∧
  queuedUpdateNotice <$> after = Some false ∧
  microtasks <$> after = Some [].
Proof.
  cbv zeta. repeat split; vm_compute; reflexivity.
Qed.

(** C3, as the code has it -- a subscriber that throws.  The exception
    leaves the loop, the job and the flush: the flag stays set, the
    baseline is not reset, and from then on mutations are committed but
    queue nothing.  If the subscribers before the one that throws simply
    return, they have been called, and the ones after it have not. *)
Theorem subscriber_fault (body : fn → script) fuel update w :
  well_formed w → queuedUpdateNotice w = true →
  let w' := (run_job body fuel (FlushJob update) w).1 in
  let fresh := length (heap w) in
  let stale := S (length (heap w)) in
  (∀ e, (run_job body fuel (FlushJob update) w).2 = Thrown e →
     queuedUpdateNotice w' = true ∧
     preBatchStaleState w' = preBatchStaleState w ∧
     microtasks w' = microtasks w ∧
     ∀ ms, queuedUpdateNotice (mutate_all ms w') = true ∧
           microtasks (mutate_all ms w') = microtasks w) ∧
  (∀ pre f post e,
     subscribers w = pre ++ Some f :: post →
     (∀ g, Some g ∈ pre → body g = Return) →
     length pre < fuel →
     (run_script fresh stale (body f)
        (set_calls (calls w ++ ((λ g, (g, fresh, stale)) <$> active pre)
                            ++ [(f, fresh, stale)])
           (emit_start update w))).2 = Thrown e →
     (run_job body fuel (FlushJob update) w).2 = Thrown e ∧
     calls w' = calls w ++ ((λ g, (g, fresh, stale)) <$> active pre)
                        ++ [(f, fresh, stale)]).
Proof.
  intros W Hq w' fresh stale. split.
  - intros e He.
    pose proof (run_job_spec body fuel update w W Hq) as S. cbv zeta in S.
    fold w' in S. rewrite He in S. destruct S as (M & _ & _ & _ & _ & _ & Q & P).
    split_and!; try done. intros ms.
    destruct (mutate_all_pending ms w' Q) as (-> & -> & _). done.
  - intros pre f post e Hs Hpre Hf He. subst w' fresh stale.
    rewrite run_job_unfold by apply W.
    pose proof (for_of_subscribers_thrower body _ _ fuel (emit_start update w)
                  pre f post e Hs Hpre Hf He) as L.
    rewrite L. simpl. split; [done|].
    by rewrite (proj1 (run_script_frame _ _ _ _)).
Qed.

Lemma subscriber_fault_witness :
  (run_job faulty 5 (FlushJob 0) (set_microtasks [] pending_service_2)).2
    = Thrown (VString "boom").
Proof.
  refine (proj1 (proj2 (subscriber_fault faulty 5 0 (set_microtasks [] pending_service_2) _ _)
                  [] 0 [Some 1] (VString "boom") _ _ _ _)).
  - split; vm_compute; lia.
  - reflexivity.
  - reflexivity.
  - intros g Hg. by apply elem_of_nil in Hg.
  - vm_compute. lia.
  - vm_compute. reflexivity.
Defined.

(** C3, as the specification has it, fails: with the two subscribers
    above on [{a: 1, b: 2}], after [a = 3] the second subscriber is
    never called, the flag stays set, and a later [a = 4] is committed
    without anything being queued or anybody being called. *)
Lemma throwing_subscriber_blocks_the_service :
  let after := run_microtasks faulty 5 pending_service_2 in
  let later :=
    after ≫= λ w, run_microtasks faulty 5 (mutate (Assign a (num 4)) w).1 in
  (λ w, active (subscribers w)) <$> after = Some [0; 1] ∧
  calls <$> after = Some [(0, 3, 4)] ∧
  queuedUpdateNotice <$> after = Some true ∧
  preBatchStaleState <$> after = Some (preBatchStaleState pending_service_2) ∧
  change_worthy (Assign a (num 4)) <$> after = Some true ∧
  (λ w, microtasks (mutate (Assign a (num 4)) w).1) <$> after = Some [] ∧
  (λ w, Reflect_get (heap w !!! target w) a) <$> later = Some (num 4) ∧
  calls <$> later = Some [(0, 3, 4)].
Proof.
  cbv zeta. repeat split; vm_compute; reflexivity.
Qed.

(** * Further properties of the class *)

(** ** The methods called directly *)

Lemma call_method_frame m w :
  subscribers (call_method m w).1 = subscribers w ∧
  calls (call_method m w).1 = calls w ∧
  target (call_method m w).1 = target w.
Proof. destruct m; [apply amendState_frame | apply pruneState_frame]. Qed.

Lemma call_method_pending m w :
  queuedUpdateNotice w = true → quiet w (call_method m w).1.
Proof. destruct m; [apply amendState_pending | apply pruneState_pending]. Qed.

(** A method called directly while no flush is pending. *)
Lemma call_method_idle m w :
  target w < length (heap w) → queuedUpdateNotice w = false →
  call_method m w =
    if hadChange m w
    then store (target w) (reflect_op m (heap w !!! target w)) (capture w)
    else (w, true).
Proof.
  intros Ht Hq. destruct m as [k v|k]; simpl.
  - unfold amendState. rewrite Hq. simpl. destruct (Object_is _ _); simpl; [done|].
    rewrite lookup_total_snoc_old by done. done.
  - unfold pruneState. rewrite Hq. simpl. destruct (Object_hasOwn _ _); simpl; [|done].
    rewrite lookup_total_snoc_old by done. done.
Qed.

(** The trap is the method followed, for an accepted change, by the
    request of a flush. *)
Lemma mutate_call_method m w :
  mutate m w =
    ((if hadChange m w && (call_method m w).2
      then addToQueue (target w) (call_method m w).1 else (call_method m w).1),
     (call_method m w).2).
Proof.
  pose proof (call_method_frame m w) as (_ & _ & T).
  destruct m as [k v|k]; simpl in *.
  - unfold agent_set. destruct (amendState k v w) as [w1 r]. simpl in *. by rewrite T.
  - unfold agent_deleteProperty. destruct (pruneState k w) as [w1 r]. simpl in *.
    by rewrite T.
Qed.

Lemma call_method_well_formed m w : well_formed w → well_formed (call_method m w).1.
Proof.
  intros [Ht Hp]. destruct (queuedUpdateNotice w) eqn:Hq.
  - eapply quiet_well_formed; [by apply call_method_pending|done].
  - rewrite call_method_idle by done. destruct (hadChange m w); [|done].
    unfold well_formed. simpl. rewrite length_insert, List.last_length. lia.
Qed.

Lemma addToQueue_well_formed l w : well_formed w → well_formed (addToQueue l w).
Proof. unfold addToQueue. by destruct (queuedUpdateNotice w). Qed.

Lemma mutate_well_formed m w : well_formed w → well_formed (mutate m w).1.
Proof.
  intros W. rewrite mutate_call_method. simpl.
  pose proof (call_method_well_formed m w W).
  destruct (_ && _); [by apply addToQueue_well_formed | done].
Qed.

Lemma mutate_all_well_formed ms : ∀ w, well_formed w → well_formed (mutate_all ms w).
Proof.
  induction ms as [|m ms IH]; intros w W; simpl; [done|].
  apply IH. by apply mutate_well_formed.
Qed.

(** The scheduler after a method called directly: flag and queue as they
    were. *)
Lemma call_method_scheduler m w :
  queuedUpdateNotice (call_method m w).1 = queuedUpdateNotice w ∧
  microtasks (call_method m w).1 = microtasks w.
Proof.
  destruct m as [k v|k]; simpl.
  - unfold amendState. destruct (Object_is _ _); [done|].
    destruct (queuedUpdateNotice w) eqn:E; simpl; by rewrite ?E.
  - unfold pruneState. destruct (negb (Object_hasOwn _ _)); [done|].
    destruct (queuedUpdateNotice w) eqn:E; simpl; by rewrite ?E.
Qed.

(** ** The scheduler stays in order *)

Lemma consistent_mutate m w : consistent w → consistent (mutate m w).1.
Proof.
  intros [W H]. split; [by apply mutate_well_formed|].
  destruct (mutate_microtasks m w (proj1 W)) as [M Q].
  pose proof (mutate_frame m w) as (_ & _ & T).
  rewrite M, Q, T.
  destruct H as [H|[H1 H2]].
  - rewrite H. destruct (change_worthy m w), (queuedUpdateNotice w); simpl; auto.
  - rewrite H1, H2, andb_false_r, orb_true_r. auto.
Qed.

Lemma consistent_call_method m w : consistent w → consistent (call_method m w).1.
Proof.
  intros [W H]. split; [by apply call_method_well_formed|].
  destruct (call_method_scheduler m w) as [-> ->].
  pose proof (call_method_frame m w) as (_ & _ & ->). done.
Qed.

Lemma consistent_run_microtasks (body : fn → script) fuel w w' :
  consistent w → run_microtasks body fuel w = Some w' →
  consistent w' ∧ microtasks w' = [].
Proof.
  intros [W H] Hr. destruct H as [H|[H1 H2]].
  - destruct fuel as [|fuel]; [done|]. simpl in Hr. rewrite H in Hr.
    injection Hr as <-. split; [|done]. split; [done|by left].
  - destruct fuel as [|fuel]; [done|].
    rewrite (run_microtasks_single body fuel _ w H2 H1 W) in Hr.
    pose proof (run_job_spec body fuel (target w) (set_microtasks [] w) W H1) as S.
    cbv zeta in S. destruct S as (M & _ & W' & _).
    destruct (run_job body fuel (FlushJob (target w)) (set_microtasks [] w)) as [w1 out].
    simpl in *. destruct out, fuel; try done; injection Hr as <-;
      (split; [|done]); (split; [done|by left]).
Qed.

(** X2 -- at most one flush is ever pending.  When the scheduler is in
    order (the queue is empty, or it holds exactly one flush, for the
    target, and the flag is set), the traps, the methods called by hand,
    the registry operations and the checkpoint all leave it in order;
    and when the checkpoint returns, the queue is empty. *)
Theorem at_most_one_flush_pending (body : fn → script) w :
  consistent w →
  length (microtasks w) ≤ 1 ∧
  (∀ m, consistent (mutate m w).1) ∧
  (∀ m, consistent (call_method m w).1) ∧
  (∀ f, consistent (subscribe f w) ∧ consistent (unsubscribe f w)) ∧
  consistent (unsubscribeAll w) ∧
  (∀ ms, consistent (mutate_all ms w)) ∧
  (∀ fuel w', run_microtasks body fuel w = Some w' →
     consistent w' ∧ microtasks w' = []).
Proof.
  intros C. split_and!.
  - destruct C as [_ [->|[_ ->]]]; simpl; lia.
  - intros m. by apply consistent_mutate.
  - intros m. by apply consistent_call_method.
  - done.
  - done.
  - intros ms. revert w C. induction ms as [|m ms IH]; intros w C; simpl; [done|].
    apply IH. by apply consistent_mutate.
  - intros fuel w'. by apply consistent_run_microtasks.
Qed.

Lemma at_most_one_flush_pending_witness :
  consistent (mutate (Assign a (num 3)) service_ab).1.
Proof.
  refine (proj1 (proj2 (at_most_one_flush_pending passive service_ab _)) _).
  split; [split; vm_compute; lia | by left].
Defined.

(** X1 -- the source is adopted, not copied.  The service built on the
    object at [source] is in order and idle; an assignment or a deletion
    through its view changes the object at [source] itself, as the
    [Reflect] operation does, and no other object that existed when the
    service was built. *)
Theorem constructor_adopts_source h source m :
  source < length h →
  let w := constructor h source in
  let w' := (mutate m w).1 in
  consistent w ∧ queuedUpdateNotice w = false ∧
  heap w !!! preBatchStaleState w = empty_object ∧
  target w' = source ∧
  heap w' !!! source =
    (if hadChange m w then (reflect_op m (h !!! source)).1 else h !!! source) ∧
  (mutate m w).2 = (if hadChange m w then (reflect_op m (h !!! source)).2 else true) ∧
  ∀ l, l < length h → l ≠ source → heap w' !!! l = h !!! l.
Proof.
  intros Hs w w'.
  assert (target w < length (heap w)) as Ht
    by (simpl; rewrite List.last_length; lia).
  assert (heap w !!! source = h !!! source) as Hh
    by (simpl; by rewrite lookup_total_snoc_old).
  split_and!.
  - split; [|by left]. split; [done|]. simpl. rewrite List.last_length. lia.
  - done.
  - simpl. apply lookup_total_snoc_new.
  - unfold w'. by destruct (mutate_frame m w) as (_ & _ & ->).
  - destruct (mutate_target m w Ht) as [_ T]. simpl in T, Hh. rewrite Hh in T. exact T.
  - destruct (mutate_target m w Ht) as [R _]. simpl in R, Hh. rewrite Hh in R. exact R.
  - intros l Hl Hne.
    destruct (mutate_other m w l Ht) as [E _].
    + simpl. rewrite List.last_length. lia.
    + done.
    + unfold w'. rewrite E. simpl. by rewrite lookup_total_snoc_old.
Qed.

Lemma constructor_adopts_source_witness :
  target (mutate (Assign a (num 3))
            (constructor [literal [(a, num 1)]; literal [(b, num 2)]] 1)).1 = 1.
Proof.
  refine (proj1 (proj2 (proj2 (proj2 (constructor_adopts_source
            [literal [(a, num 1)]; literal [(b, num 2)]] 1 (Assign a (num 3)) _))))).
  simpl. lia.
Defined.

(** ** Reading after writing *)

Lemma Reflect_set_other o k v k' :
  k ≠ k' → props (Reflect_set o k v).1 !! k' = props o !! k'.
Proof.
  intros Hne. unfold Reflect_set. destruct (props o !! k) as [p|].
  - destruct (p_writable p); simpl; [by rewrite lookup_insert_ne|done].
  - destruct (extensible o); simpl; [by rewrite lookup_insert_ne|done].
Qed.

Lemma Reflect_deleteProperty_other o k k' :
  k ≠ k' → props (Reflect_deleteProperty o k).1 !! k' = props o !! k'.
Proof.
  intros Hne. unfold Reflect_deleteProperty. destruct (props o !! k) as [p|]; [|done].
  destruct (p_configurable p); simpl; [by rewrite lookup_delete_ne|done].
Qed.

Lemma Reflect_deleteProperty_accepted o k :
  (Reflect_deleteProperty o k).2 = true →
  props (Reflect_deleteProperty o k).1 !! k = None.
Proof.
  unfold Reflect_deleteProperty. destruct (props o !! k) as [p|] eqn:E; [|done].
  destruct (p_configurable p); simpl; [|done]. intros _. apply lookup_delete_eq.
Qed.

(** X3 -- read your writes, on the record's own keys.  When an
    assignment through the view to a key that the record holds as an own
    property has returned [true], the view reads the assigned value
    under that key, which is still an own property.  When a deletion has
    returned [true], the key is not an own property of the record.  In
    both cases every other own property is what it was.  (A key that the
    record only inherits is read and written through the prototype
    chain, which the model leaves out: nothing is said of it here.) *)
Theorem view_reads_what_was_written m w :
  target w < length (heap w) →
  (mutate m w).2 = true →
  let o := heap w !!! target w in
  let o' := heap (mutate m w).1 !!! target (mutate m w).1 in
  match m with
  | Assign k v =>
      Object_hasOwn o k = true →
      Reflect_get o' k = v ∧ Object_hasOwn o' k = true ∧
      ∀ k', k ≠ k' → props o' !! k' = props o !! k'
  | Remove k =>
      Object_hasOwn o' k = false ∧
      ∀ k', k ≠ k' → props o' !! k' = props o !! k'
  end.
Proof.
  intros Ht Hr o o'.
  destruct (mutate_target m w Ht) as [R T]. rewrite Hr in R.
  pose proof (mutate_frame m w) as (_ & _ & Tg).
  subst o' o. rewrite Tg, T. clear T.
  destruct m as [k v|k]; simpl in *; set (o := heap w !!! target w) in *.
  - intros Hown.
    destruct (Object_is (Reflect_get o k) v) eqn:E; simpl in *.
    + apply Object_is_eq in E. done.
    + split_and!; [| |intros; by apply Reflect_set_other].
      * unfold Reflect_get at 1. rewrite Reflect_set_accepted by done.
        by destruct (props o !! k).
      * unfold Object_hasOwn. by rewrite Reflect_set_accepted.
  - unfold Object_hasOwn in *.
    destruct (props o !! k) as [p|] eqn:E; simpl in *.
    + rewrite Reflect_deleteProperty_accepted by done.
      split; [done|intros; by apply Reflect_deleteProperty_other].
    + rewrite E. done.
Qed.

Lemma view_reads_what_was_written_witness :
  Reflect_get (heap (mutate (Assign a (num 3)) service_ab).1 !!! 0) a = num 3.
Proof.
  refine (proj1 (view_reads_what_was_written (Assign a (num 3)) service_ab _ _ _)).
  - vm_compute. lia.
  - vm_compute. reflexivity.
  - vm_compute. reflexivity.
Defined.

(** ** The baseline *)

(** X4 -- the baseline is recorded on the change test alone.  With no
    flush pending, a mutation that the trap judges a change replaces the
    baseline by a new copy of the record as it is before the commit,
    whether the target then accepts the commit or refuses it; a mutation
    judged no change leaves the world as it is.  With a flush pending
    the baseline is never replaced. *)
Theorem baseline_recorded_on_change_test m w :
  target w < length (heap w) →
  let w' := (mutate m w).1 in
  (queuedUpdateNotice w = false → hadChange m w = true →
     preBatchStaleState w' = length (heap w) ∧
     heap w' !!! preBatchStaleState w' = spread (heap w !!! target w)) ∧
  (hadChange m w = false → mutate m w = (w, true)) ∧
  (queuedUpdateNotice w = true → preBatchStaleState w' = preBatchStaleState w).
Proof.
  intros Ht w'. split_and!.
  - intros Hq Hc. subst w'. rewrite mutate_idle by done. rewrite Hc. cbv zeta.
    destruct (reflect_op m (heap w !!! target w)) as [o r].
    destruct r; cbn [fst snd];
      rewrite ?heap_addToQueue;
      rewrite ?(proj2 (proj2 (proj2 (proj2 (addToQueue_frame _ _))))); simpl;
      (split; [done|]);
      rewrite lookup_total_insert_ne by lia; apply lookup_total_snoc_new.
  - intros Hc. destruct (queuedUpdateNotice w) eqn:Hq.
    + rewrite mutate_pending_eq by done. by rewrite Hc.
    + rewrite mutate_idle by done. by rewrite Hc.
  - intros Hq. subst w'. by destruct (mutate_pending m w Hq) as (_ & _ & -> & _).
Qed.

Lemma baseline_recorded_on_change_test_witness :
  preBatchStaleState (mutate (Assign a (num 2)) frozen_service).1 = 2 ∧
  mutate (Assign a (num 1)) service_ab = (service_ab, true) ∧
  preBatchStaleState (mutate (Remove b) pending_service).1
    = preBatchStaleState pending_service.
Proof.
  split_and!.
  - refine (proj1 (proj1 (baseline_recorded_on_change_test
                            (Assign a (num 2)) frozen_service _) _ _)).
    + vm_compute. lia.
    + reflexivity.
    + vm_compute. reflexivity.
  - refine (proj1 (proj2 (baseline_recorded_on_change_test
                            (Assign a (num 1)) service_ab _)) _).
    + vm_compute. lia.
    + vm_compute. reflexivity.
  - refine (proj2 (proj2 (baseline_recorded_on_change_test
                            (Remove b) pending_service _)) _).
    + vm_compute. lia.
    + reflexivity.
Defined.

(** ** The two copies of the class *)

(** X16 -- the traps written in one body behave as the traps written over
    [amendState] and [pruneState]: same world, same result, on every
    input. *)
Theorem inline_traps_agree k v w :
  inline_set k v w = agent_set k v w ∧
  inline_deleteProperty k w = agent_deleteProperty k w.
Proof.
  split.
  - unfold inline_set, agent_set, amendState.
    destruct (Object_is _ _); simpl; [done|].
    destruct (negb (queuedUpdateNotice w)); simpl;
      by destruct (Reflect_set _ _ _).2.
  - unfold inline_deleteProperty, agent_deleteProperty, pruneState.
    destruct (Object_hasOwn _ _); simpl; [|done].
    destruct (negb (queuedUpdateNotice w)); simpl;
      by destruct (Reflect_deleteProperty _ _).2.
Qed.

(** ** Flushes whose subscribers return at once *)

Section Returning.

Variable body : fn → script.

Lemma emitQueued_returning fuel fresh stale w :
  stale < length (heap w) →
  (∀ g, Some g ∈ subscribers w → body g = Return) →
  length (subscribers w) < fuel →
  emitQueued body fuel fresh stale w = (emitted fresh stale w, Normal).
Proof.
  intros Hs Hp Hf. unfold emitQueued, alloc, emitted. simpl.
  rewrite List.last_length, lookup_total_snoc_old by done.
  rewrite for_of_subscribers_passive by done. simpl. by rewrite <- app_assoc.
Qed.

Lemma run_job_returning fuel update w :
  preBatchStaleState w < length (heap w) →
  (∀ g, Some g ∈ subscribers w → body g = Return) →
  length (subscribers w) < fuel →
  run_job body fuel (FlushJob update) w = (flushed update w, Normal).
Proof.
  intros Hs Hp Hf. unfold run_job. by rewrite emitQueued_returning.
Qed.

(** The checkpoint with one flush pending. *)
Lemma run_microtasks_returning fuel update w :
  well_formed w → queuedUpdateNotice w = true →
  microtasks w = [FlushJob update] →
  (∀ g, Some g ∈ subscribers w → body g = Return) →
  length (subscribers w) + 2 ≤ fuel →
  run_microtasks body fuel w = Some (flushed update (set_microtasks [] w)).
Proof.
  intros W Hq Hm Hp Hf. destruct fuel as [|[|fuel]]; [lia|lia|].
  rewrite (run_microtasks_single body (S fuel) _ w Hm Hq W).
  rewrite run_job_returning; [done|apply W|done|simpl; lia].
Qed.

(** What such a flush leaves: every object that existed is as it was,
    three objects are new (the two frozen copies and the empty
    baseline), the service is idle. *)
Lemma flushed_spec update w :
  well_formed w →
  let w' := flushed update w in
  heap w' = heap w ++ [Object_freeze (spread (heap w !!! update));
                       Object_freeze (spread (heap w !!! preBatchStaleState w));
                       empty_object] ∧
  queuedUpdateNotice w' = false ∧ microtasks w' = microtasks w ∧
  subscribers w' = subscribers w ∧ target w' = target w ∧
  preBatchStaleState w' = S (S (length (heap w))) ∧
  well_formed w' ∧
  calls w' = calls w ++ ((λ g, (g, length (heap w), S (length (heap w))))
                           <$> active (subscribers w)).
Proof.
  intros [Ht Hp]. cbv zeta. unfold flushed, emitted, well_formed. simpl.
  rewrite !length_app. simpl. rewrite <- !app_assoc. simpl.
  split_and!; try done; lia.
Qed.

End Returning.

(** X15 -- [emitQueued] called by hand.  With subscribers that return at
    once, [emitQueued(fresh, stale)] calls each of them once, in order,
    with frozen copies of the two objects given, whatever these are.  It
    freezes the copies only: the objects given, like every other object,
    are left as they were, and so are the flag, the queue, the baseline
    and the subscriber set. *)
Theorem emitQueued_by_hand (body : fn → script) fuel fresh stale w :
  stale < length (heap w) →
  (∀ g, Some g ∈ subscribers w → body g = Return) →
  length (subscribers w) < fuel →
  let w' := (emitQueued body fuel fresh stale w).1 in
  (emitQueued body fuel fresh stale w).2 = Normal ∧
  heap w' = heap w ++ [Object_freeze (spread (heap w !!! fresh));
                       Object_freeze (spread (heap w !!! stale))] ∧
  calls w' = calls w ++ ((λ g, (g, length (heap w), S (length (heap w))))
                           <$> active (subscribers w)) ∧
  queuedUpdateNotice w' = queuedUpdateNotice w ∧
  microtasks w' = microtasks w ∧
  preBatchStaleState w' = preBatchStaleState w ∧
  subscribers w' = subscribers w ∧
  target w' = target w.
Proof.
  intros Hs Hp Hf. cbv zeta. rewrite emitQueued_returning by done.
  unfold emitted. simpl. split_and!; done.
Qed.

Lemma emitQueued_by_hand_witness :
  (emitQueued passive 2 0 1 service_ab).2 = Normal.
Proof.
  refine (proj1 (emitQueued_by_hand passive 2 0 1 service_ab _ _ _)).
  - vm_compute. lia.
  - reflexivity.
  - vm_compute. lia.
Defined.

(** ** The subscriber set *)

Lemma elem_of_active f s : f ∈ active s ↔ Some f ∈ s.
Proof.
  unfold active. rewrite list_elem_of_omap. split.
  - intros (x & Hx & E). simpl in E. by subst x.
  - intros H. by exists (Some f).
Qed.

Lemma active_app s1 s2 : active (s1 ++ s2) = active s1 ++ active s2.
Proof. unfold active. apply omap_app. Qed.

Lemma active_Set_add f s :
  active (Set_add f s) = if decide (f ∈ active s) then active s else active s ++ [f].
Proof.
  unfold Set_add. destruct (decide (Some f ∈ s)) as [H|H].
  - rewrite decide_True by (by apply elem_of_active). done.
  - rewrite decide_False by (by rewrite elem_of_active). by rewrite active_app.
Qed.

Lemma active_Set_delete f s :
  active (Set_delete f s) = filter (λ g, g ≠ f) (active s).
Proof.
  induction s as [|[g|] s IH]; simpl; [done| |done].
  destruct (decide (Some g = Some f)) as [E|E].
  - injection E as ->. unfold active in *. simpl.
    rewrite filter_cons_False by (intros H; by apply H). done.
  - unfold active in *. simpl.
    rewrite filter_cons_True by congruence. by rewrite <- IH.
Qed.

Lemma active_Set_clear s : active (Set_clear s) = [].
Proof. induction s as [|x s IH]; [done|]. exact IH. Qed.

Lemma lookup_total_app_new (h l : list object) i :
  (h ++ l) !!! (i + length h) = l !!! i.
Proof.
  rewrite !list_lookup_total_alt, lookup_app_r by lia.
  by replace (i + length h - length h) with i by lia.
Qed.

Lemma filter_absent (f : fn) (l : list fn) : f ∉ l → filter (λ g, g ≠ f) l = l.
Proof.
  induction l as [|x l IH]; [done|]. intros H.
  apply not_elem_of_cons in H as [Hne Hl].
  rewrite filter_cons_True by congruence. by rewrite IH.
Qed.

Lemma Set_add_idem f s : Set_add f (Set_add f s) = Set_add f s.
Proof.
  unfold Set_add. destruct (decide (Some f ∈ s)) as [H|H].
  - by rewrite decide_True.
  - rewrite decide_True; [done|]. apply elem_of_app. right.
    by apply list_elem_of_singleton.
Qed.

Lemma Set_delete_elem g f s : Some g ∈ Set_delete f s → Some g ∈ s.
Proof.
  unfold Set_delete. rewrite list_elem_of_fmap. intros (x & E & Hx).
  destruct (decide (x = Some f)); [done|]. by subst x.
Qed.

Lemma Set_clear_elem g s : Some g ∉ Set_clear s.
Proof.
  unfold Set_clear. rewrite list_elem_of_fmap. by intros (x & E & _).
Qed.

(** X7 -- the subscribers form a set in insertion order.  Subscribing a
    function that is subscribed changes nothing, so it is never called
    twice by a flush; a new one goes to the end.  Unsubscribing removes
    the function and keeps the others in order, and does nothing when
    the function is not subscribed.  [unsubscribeAll] leaves nobody. *)
Theorem subscriber_set_semantics f w :
  NoDup (active (subscribers w)) →
  let s := active (subscribers w) in
  subscribe f (subscribe f w) = subscribe f w ∧
  (f ∈ s → subscribe f w = w) ∧
  (f ∉ s → active (subscribers (subscribe f w)) = s ++ [f]) ∧
  NoDup (active (subscribers (subscribe f w))) ∧
  active (subscribers (unsubscribe f w)) = filter (λ g, g ≠ f) s ∧
  (f ∉ s → active (subscribers (unsubscribe f w)) = s) ∧
  NoDup (active (subscribers (unsubscribe f w))) ∧
  active (subscribers (subscribe f (unsubscribe f w))) = filter (λ g, g ≠ f) s ++ [f] ∧
  active (subscribers (unsubscribeAll w)) = [].
Proof.
  intros Hnd s. unfold subscribe, unsubscribe, unsubscribeAll. simpl.
  split_and!.
  - unfold set_subscribers. simpl. by rewrite Set_add_idem.
  - intros H. unfold Set_add. rewrite decide_True by (by apply elem_of_active).
    by destruct w.
  - intros H. rewrite active_Set_add. by rewrite decide_False.
  - rewrite active_Set_add. destruct (decide (f ∈ active (subscribers w))); [done|].
    apply NoDup_app. split_and!; [done| |apply NoDup_singleton].
    intros x Hx Hf. apply list_elem_of_singleton in Hf. by subst x.
  - apply active_Set_delete.
  - intros H. rewrite active_Set_delete. by apply filter_absent.
  - rewrite active_Set_delete. by apply NoDup_filter.
  - rewrite active_Set_add, active_Set_delete. rewrite decide_False; [done|].
    rewrite list_elem_of_filter. by intros [H _].
  - apply active_Set_clear.
Qed.

Lemma subscriber_set_semantics_witness :
  subscribe 0 (subscribe 0 service_ab) = subscribe 0 service_ab.
Proof.
  refine (proj1 (subscriber_set_semantics 0 service_ab _)).
  vm_compute. apply NoDup_singleton.
Defined.

(** X8 -- unsubscribed before the flush fires.  With a flush pending and
    subscribers that return at once, a function unsubscribed before the
    checkpoint is not called by that flush; the others are called once
    each, in order. *)
Theorem unsubscribed_before_flush_not_called (body : fn → script) fuel update f w :
  well_formed w → queuedUpdateNotice w = true →
  microtasks w = [FlushJob update] →
  (∀ g, Some g ∈ subscribers w → body g = Return) →
  length (subscribers w) + 2 ≤ fuel →
  ∃ w2 cs,
    run_microtasks body fuel (unsubscribe f w) = Some w2 ∧
    calls w2 = calls w ++ cs ∧
    cs = (λ g, (g, length (heap w), S (length (heap w))))
           <$> filter (λ g, g ≠ f) (active (subscribers w)) ∧
    ∀ c, c ∈ cs → c.1.1 ≠ f.
Proof.
  intros W Hq Hm Hp Hf.
  eexists _, _. split_and!.
  - apply run_microtasks_returning; try done.
    + intros g Hg. apply Hp. simpl in Hg. by eapply Set_delete_elem.
    + simpl. unfold Set_delete. rewrite length_fmap. done.
  - destruct (flushed_spec update (set_microtasks [] (unsubscribe f w)) W)
      as (_ & _ & _ & _ & _ & _ & _ & ->). simpl. rewrite active_Set_delete. done.
  - done.
  - intros c. rewrite list_elem_of_fmap. intros (g & -> & Hg). simpl.
    apply list_elem_of_filter in Hg. tauto.
Qed.

Lemma unsubscribed_before_flush_not_called_witness :
  ∃ w2 cs,
    run_microtasks passive 5 (unsubscribe 0 pending_service_2) = Some w2 ∧
    calls w2 = calls pending_service_2 ++ cs ∧
    cs = (λ g, (g, length (heap pending_service_2), S (length (heap pending_service_2))))
           <$> filter (λ g, g ≠ 0) (active (subscribers pending_service_2)) ∧
    ∀ c, c ∈ cs → c.1.1 ≠ 0.
Proof.
  apply (unsubscribed_before_flush_not_called passive 5 0 0 pending_service_2).
  - split; vm_compute; lia.
  - reflexivity.
  - reflexivity.
  - reflexivity.
  - vm_compute. lia.
Defined.

(** X9 -- [unsubscribeAll] before the flush fires.  Whatever the code of
    the functions that were subscribed, the pending flush then calls
    nobody; it still clears the flag, resets the baseline to a new empty
    object, empties the queue and leaves the record alone. *)
Theorem unsubscribeAll_before_flush (body : fn → script) fuel update w :
  well_formed w → queuedUpdateNotice w = true →
  microtasks w = [FlushJob update] →
  length (subscribers w) + 2 ≤ fuel →
  ∃ w2,
    run_microtasks body fuel (unsubscribeAll w) = Some w2 ∧
    calls w2 = calls w ∧
    queuedUpdateNotice w2 = false ∧ microtasks w2 = [] ∧
    heap w2 !!! preBatchStaleState w2 = empty_object ∧
    heap w2 !!! target w2 = heap w !!! target w.
Proof.
  intros W Hq Hm Hf.
  pose proof (flushed_spec update (set_microtasks [] (unsubscribeAll w)) W) as S.
  cbv zeta in S. destruct S as (Hh & S1 & S2 & _ & S4 & S5 & _ & S7).
  eexists. split_and!.
  - apply run_microtasks_returning; try done.
    + intros g Hg. simpl in Hg. by apply Set_clear_elem in Hg.
    + simpl. unfold Set_clear. rewrite length_fmap. done.
  - rewrite S7. simpl. rewrite active_Set_clear. simpl. by rewrite app_nil_r.
  - done.
  - done.
  - rewrite S5, Hh. simpl.
    exact (lookup_total_app_new (heap w) _ 2).
  - rewrite S4, Hh. simpl. rewrite !list_lookup_total_alt, lookup_app_l by apply W. done.
Qed.

Lemma unsubscribeAll_before_flush_witness :
  ∃ w2, run_microtasks faulty 5 (unsubscribeAll pending_service_2) = Some w2 ∧
        calls w2 = calls pending_service_2.
Proof.
  destruct (unsubscribeAll_before_flush faulty 5 0 pending_service_2)
    as (w2 & H1 & H2 & _).
  - split; vm_compute; lia.
  - reflexivity.
  - reflexivity.
  - vm_compute. lia.
  - exists w2. by split.
Defined.

(** ** The loop reads the set as it goes *)

Lemma drop_after_middle {A} (pre post extra : list A) x :
  drop (S (length pre)) ((pre ++ x :: post) ++ extra) = post ++ extra.
Proof. induction pre as [|y pre IH]; simpl; [done|exact IH]. Qed.

Section Live.

Variable body : fn → script.

(** The loop from entry [i] on, when the entries from there on return at
    once. *)
Lemma for_of_subscribers_rest lf ls fuel i w :
  (∀ g, Some g ∈ drop i (subscribers w) → body g = Return) →
  length (subscribers w) - i < fuel →
  for_of_subscribers body fuel i lf ls w =
    (set_calls (calls w ++ ((λ g, (g, lf, ls)) <$> active (drop i (subscribers w)))) w,
     Normal).
Proof.
  intros Hp Hf.
  replace fuel with (length (drop i (subscribers w)) +
                     S (fuel - S (length (drop i (subscribers w)))))
    by (rewrite length_drop; lia).
  rewrite (for_of_subscribers_returning body lf ls (drop i (subscribers w)) _ i w []);
    [|by rewrite app_nil_r|done].
  simpl. rewrite lookup_ge_None_2; [done|]. simpl. rewrite length_drop. lia.
Qed.

(** The loop up to and including a subscriber [f] that follows
    subscribers returning at once. *)
Lemma for_of_subscribers_upto lf ls fuel w pre f post :
  subscribers w = pre ++ Some f :: post →
  (∀ g, Some g ∈ pre → body g = Return) →
  for_of_subscribers body (length pre + S fuel) 0 lf ls w =
    match run_script lf ls (body f)
            (set_calls (calls w ++ ((λ g, (g, lf, ls)) <$> active pre)
                                ++ [(f, lf, ls)]) w) with
    | (w2, Normal) => for_of_subscribers body fuel (S (length pre)) lf ls w2
    | (w2, out) => (w2, out)
    end.
Proof.
  intros Hs Hp.
  rewrite (for_of_subscribers_returning body lf ls pre _ 0 w (Some f :: post));
    [|done|done].
  simpl. rewrite Hs, list_lookup_middle by done. simpl.
  by rewrite <- app_assoc.
Qed.

Lemma delivering_emit_start update w :
  well_formed w → queuedUpdateNotice w = true →
  delivering (length (heap w)) (S (length (heap w))) (emit_start update w).
Proof.
  intros [Ht Hp] Hq. unfold delivering, emit_start. simpl.
  rewrite (lookup_total_app_new (heap w) _ 0), (lookup_total_app_new (heap w) _ 1).
  simpl. rewrite !Object_isFrozen_freeze. split_and!; try done; lia.
Qed.

End Live.

(** X10 -- subscribed during delivery, called by the same flush.  The loop
    of [emitQueued] reads the live set: when a subscriber subscribes a
    new function [g] while it is being notified, [g] is called by the
    flush in progress, after all the others, with the same two
    objects. *)
Theorem subscribed_during_delivery_is_called (body : fn → script)
    fuel fresh stale w pre f g post :
  subscribers w = pre ++ Some f :: post →
  body f = CallSubscribe g Return →
  Some g ∉ subscribers w →
  (∀ h, Some h ∈ pre ++ post ++ [Some g] → body h = Return) →
  length (subscribers w) + 1 < fuel →
  let w' := (emitQueued body fuel fresh stale w).1 in
  let call := λ h, (h, length (heap w), S (length (heap w))) in
  (emitQueued body fuel fresh stale w).2 = Normal ∧
  calls w' = calls w ++ (call <$> active pre) ++ [call f]
                     ++ (call <$> active post) ++ [call g] ∧
  subscribers w' = subscribers w ++ [Some g].
Proof.
  intros Hs Hf Hg Hp Hfuel. cbv zeta.
  assert (length (subscribers w) = length pre + S (length post)) as Hl
    by (rewrite Hs, length_app; simpl; lia).
  unfold emitQueued, alloc. simpl. rewrite List.last_length.
  replace fuel with (length pre + S (fuel - S (length pre))) by lia.
  rewrite (for_of_subscribers_upto body _ _ _ _ pre f post); [|exact Hs|
    intros h Hh; apply Hp; apply elem_of_app; by left].
  rewrite Hf. simpl.
  unfold subscribe, Set_add. simpl. rewrite decide_False by done.
  rewrite for_of_subscribers_rest.
  - simpl. rewrite Hs, drop_after_middle, active_app. simpl.
    rewrite fmap_app. simpl. rewrite <- !app_assoc. done.
  - simpl. intros h Hh. apply Hp. rewrite Hs, drop_after_middle in Hh.
    apply elem_of_app. by right.
  - simpl. rewrite length_app. simpl. lia.
Qed.

(** Subscriber [0] subscribes [1]; every other one simply returns. *)
Lemma subscribed_during_delivery_is_called_witness :
  (emitQueued (λ f, match f with 0 => CallSubscribe 1 Return | _ => Return end)
     5 0 1 service_ab).2 = Normal.
Proof.
  refine (proj1 (subscribed_during_delivery_is_called
            (λ f, match f with 0 => CallSubscribe 1 Return | _ => Return end)
            5 0 1 service_ab [] 0 1 [] _ _ _ _ _)).
  - reflexivity.
  - reflexivity.
  - vm_compute. intros H. apply list_elem_of_singleton in H. discriminate.
  - intros h Hh. simpl in Hh. apply list_elem_of_singleton in Hh.
    by injection Hh as ->.
  - vm_compute. lia.
Defined.

(** X11 -- [unsubscribeAll] during delivery ends the delivery.  When a
    subscriber calls [unsubscribeAll] while it is being notified, the
    subscribers that come after it are not called by the flush in
    progress, whatever their code. *)
Theorem unsubscribeAll_during_delivery (body : fn → script)
    fuel fresh stale w pre f post :
  subscribers w = pre ++ Some f :: post →
  body f = CallUnsubscribeAll Return →
  (∀ h, Some h ∈ pre → body h = Return) →
  length (subscribers w) < fuel →
  let w' := (emitQueued body fuel fresh stale w).1 in
  let call := λ h, (h, length (heap w), S (length (heap w))) in
  (emitQueued body fuel fresh stale w).2 = Normal ∧
  calls w' = calls w ++ (call <$> active pre) ++ [call f] ∧
  active (subscribers w') = [].
Proof.
  intros Hs Hf Hp Hfuel. cbv zeta.
  assert (length (subscribers w) = length pre + S (length post)) as Hl
    by (rewrite Hs, length_app; simpl; lia).
  unfold emitQueued, alloc. simpl. rewrite List.last_length.
  replace fuel with (length pre + S (fuel - S (length pre))) by lia.
  rewrite (for_of_subscribers_upto body _ _ _ _ pre f post); [|exact Hs|done].
  rewrite Hf. simpl.
  assert (∀ i, active (drop i (Set_clear (subscribers w))) = []) as Hnone.
  { intros i. unfold Set_clear. rewrite <- fmap_drop. apply active_Set_clear. }
  rewrite for_of_subscribers_rest.
  - simpl. rewrite Hnone, active_Set_clear. simpl. by rewrite app_nil_r.
  - simpl. intros h Hh. apply elem_of_active in Hh. rewrite Hnone in Hh.
    by apply elem_of_nil in Hh.
  - simpl. unfold Set_clear. rewrite length_fmap. lia.
Qed.

(** Subscriber [0] unsubscribes everybody, subscriber [1] would throw. *)
Lemma unsubscribeAll_during_delivery_witness :
  (emitQueued (λ f, match f with 0 => CallUnsubscribeAll Return | _ => Throw VNull end)
     5 0 1 (subscribe 1 service_ab)).2 = Normal.
Proof.
  refine (proj1 (unsubscribeAll_during_delivery
            (λ f, match f with 0 => CallUnsubscribeAll Return | _ => Throw VNull end)
            5 0 1 (subscribe 1 service_ab) [] 0 [Some 1] _ _ _ _)).
  - reflexivity.
  - reflexivity.
  - intros h Hh. by apply elem_of_nil in Hh.
  - vm_compute. lia.
Defined.

(** ** A subscriber that writes to what it receives *)

Lemma run_script_strict_write lf ls arg k v e w :
  delivering lf ls w →
  run_script lf ls (ArgSet arg k v (λ ok, if ok then Return else Throw e)) w
    = (w, Thrown e).
Proof.
  intros D. simpl.
  rewrite Reflect_set_frozen by (by apply delivering_arg). simpl.
  by rewrite insert_total_id, set_heap_id.
Qed.

(** X12 -- a strict-mode write to a snapshot stops the service.  A
    subscriber that assigns to a property of the object it receives, in
    the way of strict code (a refused assignment throws), throws inside
    the delivery: the subscribers after it are not called, the flag
    stays set, and no later mutation queues a flush. *)
Theorem strict_write_to_snapshot_blocks (body : fn → script)
    fuel update w pre f post arg k v e :
  well_formed w → queuedUpdateNotice w = true →
  subscribers w = pre ++ Some f :: post →
  (∀ g, Some g ∈ pre → body g = Return) →
  body f = ArgSet arg k v (λ ok, if ok then Return else Throw e) →
  length pre < fuel →
  let w' := (run_job body fuel (FlushJob update) w).1 in
  let call := λ h, (h, length (heap w), S (length (heap w))) in
  (run_job body fuel (FlushJob update) w).2 = Thrown e ∧
  calls w' = calls w ++ (call <$> active pre) ++ [call f] ∧
  queuedUpdateNotice w' = true ∧
  ∀ ms, microtasks (mutate_all ms w') = microtasks w.
Proof.
  intros W Hq Hs Hp Hf Hfuel. cbv zeta.
  pose proof (delivering_emit_start update w W Hq) as D.
  set (lf := length (heap w)) in *. set (ls := S lf) in *.
  set (w1 := set_calls (calls w ++ ((λ g, (g, lf, ls)) <$> active pre) ++ [(f, lf, ls)])
               (emit_start update w)).
  assert (run_script lf ls (body f) w1 = (w1, Thrown e)) as Hrun.
  { rewrite Hf. apply run_script_strict_write. exact D. }
  assert (for_of_subscribers body fuel 0 lf ls (emit_start update w) = (w1, Thrown e))
    as L.
  { pose proof (for_of_subscribers_thrower body lf ls fuel (emit_start update w)
                  pre f post e Hs Hp Hfuel) as L. cbv zeta in L.
    change (set_calls _ (emit_start update w)) with w1 in L.
    rewrite Hrun in L. by apply L. }
  rewrite run_job_unfold by apply W. fold lf ls. rewrite L.
  simpl. split_and!; try done. intros ms.
  assert (queuedUpdateNotice w1 = true) as Hq1 by exact Hq.
  by destruct (mutate_all_pending ms w1 Hq1) as (_ & -> & _).
Qed.

Lemma strict_write_to_snapshot_blocks_witness :
  (run_job (λ _, ArgSet Fresh a (num 9) (λ ok, if ok then Return else Throw VNull))
     5 (FlushJob 0) (set_microtasks [] pending_service)).2 = Thrown VNull.
Proof.
  refine (proj1 (strict_write_to_snapshot_blocks
            (λ _, ArgSet Fresh a (num 9) (λ ok, if ok then Return else Throw VNull))
            5 0 (set_microtasks [] pending_service) [] 0 [] Fresh a (num 9) VNull
            _ _ _ _ _ _)).
  - split; vm_compute; lia.
  - reflexivity.
  - reflexivity.
  - intros g Hg. by apply elem_of_nil in Hg.
  - reflexivity.
  - simpl. lia.
Defined.

(** ** Turn after turn *)

Lemma flushed_popped_spec update w :
  well_formed w →
  let w' := flushed update (set_microtasks [] w) in
  heap w' = heap w ++ [Object_freeze (spread (heap w !!! update));
                       Object_freeze (spread (heap w !!! preBatchStaleState w));
                       empty_object] ∧
  queuedUpdateNotice w' = false ∧ microtasks w' = [] ∧
  subscribers w' = subscribers w ∧ target w' = target w ∧
  well_formed w' ∧
  calls w' = calls w ++ ((λ g, (g, length (heap w), S (length (heap w))))
                           <$> active (subscribers w)).
Proof.
  intros W.
  destruct (flushed_spec update (set_microtasks [] w) W)
    as (H1 & H2 & H3 & H4 & H5 & _ & H7 & H8).
  split_and!; done.
Qed.

Lemma turn_returning (body : fn → script) fuel ms w :
  well_formed w → queuedUpdateNotice w = false → microtasks w = [] →
  (∀ g, Some g ∈ subscribers w → body g = Return) →
  length (subscribers w) + 2 ≤ fuel →
  turn body fuel ms w =
    Some (if any_change_worthy ms w
          then flushed (target w) (set_microtasks [] (mutate_all ms w))
          else mutate_all ms w).
Proof.
  intros W Hq Hm Hp Hf. unfold turn.
  pose proof (mutate_all_idle ms w (proj1 W) Hq) as H. cbv zeta in H.
  pose proof (mutate_all_frame ms w) as (S1 & _ & _).
  destruct (any_change_worthy ms w).
  - destruct H as (Q1 & M1 & W1 & _). rewrite Hm in M1.
    apply run_microtasks_returning; try done; by rewrite S1.
  - destruct H as (_ & M1 & _). rewrite Hm in M1.
    destruct fuel; [lia|]. simpl. by rewrite M1.
Qed.

(** X5 -- a turn without a change-worthy mutation notifies nobody.  From
    an idle state, if no mutation of the turn is both judged a change
    and accepted (same values, absent keys, refused commits), the
    checkpoint finds the queue empty: no subscriber is called, whatever
    its code, and the record is what it was. *)
Theorem turn_without_change_is_silent (body : fn → script) fuel ms w :
  well_formed w → queuedUpdateNotice w = false → microtasks w = [] →
  any_change_worthy ms w = false →
  0 < fuel →
  turn body fuel ms w = Some (mutate_all ms w) ∧
  calls (mutate_all ms w) = calls w ∧
  heap (mutate_all ms w) !!! target w = heap w !!! target w ∧
  queuedUpdateNotice (mutate_all ms w) = false.
Proof.
  intros W Hq Hm Hw Hf. unfold turn.
  pose proof (mutate_all_idle ms w (proj1 W) Hq) as H. cbv zeta in H.
  rewrite Hw, Hm in H. destruct H as (Q1 & M1 & T1).
  pose proof (mutate_all_frame ms w) as (_ & C1 & Tg). rewrite Tg in T1.
  split_and!; try done.
  destruct fuel; [lia|]. simpl. by rewrite M1.
Qed.

Lemma turn_without_change_is_silent_witness :
  turn faulty 1 [Assign a (num 1); Remove (KString "c"); Assign b (num 2)] service_ab
    = Some (mutate_all [Assign a (num 1); Remove (KString "c"); Assign b (num 2)]
              service_ab).
Proof.
  refine (proj1 (turn_without_change_is_silent faulty 1
            [Assign a (num 1); Remove (KString "c"); Assign b (num 2)] service_ab
            _ _ _ _ _)).
  - split; vm_compute; lia.
  - reflexivity.
  - reflexivity.
  - vm_compute. reflexivity.
  - lia.
Defined.

(** X6 -- consecutive notifications chain.  With subscribers that return
    at once, two turns that each make a change-worthy mutation give two
    rounds of calls, one call per subscriber in each, and the [stale] of
    the second round is equal to the [fresh] of the first: the record as
    the first turn left it. *)
Theorem consecutive_notifications_chain (body : fn → script) fuel ms1 ms2 w :
  well_formed w → queuedUpdateNotice w = false → microtasks w = [] →
  (∀ g, Some g ∈ subscribers w → body g = Return) →
  length (subscribers w) + 2 ≤ fuel →
  any_change_worthy ms1 w = true →
  let w1 := mutate_all ms1 w in
  let w2 := flushed (target w) (set_microtasks [] w1) in
  let w3 := mutate_all ms2 w2 in
  let w4 := flushed (target w) (set_microtasks [] w3) in
  any_change_worthy ms2 w2 = true →
  turn body fuel ms1 w = Some w2 ∧
  turn body fuel ms2 w2 = Some w4 ∧
  heap w2 !!! length (heap w1) = Object_freeze (spread (heap w1 !!! target w)) ∧
  heap w4 !!! S (length (heap w3)) = heap w2 !!! length (heap w1) ∧
  calls w4 = calls w
    ++ ((λ g, (g, length (heap w1), S (length (heap w1)))) <$> active (subscribers w))
    ++ ((λ g, (g, length (heap w3), S (length (heap w3)))) <$> active (subscribers w)).
Proof.
  intros W Hq Hm Hp Hf Hw1 w1 w2 w3 w4 Hw2.
  pose proof (mutate_all_idle ms1 w (proj1 W) Hq) as H1. cbv zeta in H1.
  rewrite Hw1 in H1. fold w1 in H1. destruct H1 as (_ & _ & W1 & B1).
  pose proof (mutate_all_frame ms1 w) as (S1 & C1 & T1). fold w1 in S1, C1, T1.
  pose proof (flushed_popped_spec (target w) w1 W1) as F.
  cbv zeta in F. fold w2 in F.
  destruct F as (Hh2 & Q2 & M2 & S2 & T2 & W2 & C2).
  rewrite T1 in T2. rewrite S1 in S2, C2. rewrite C1 in C2.
  assert (heap w2 !!! target w = heap w1 !!! target w) as Ht2.
  { rewrite Hh2, !list_lookup_total_alt, lookup_app_l; [done|].
    rewrite <- T1. apply W1. }
  pose proof (mutate_all_idle ms2 w2 (proj1 W2) Q2) as H3. cbv zeta in H3.
  rewrite Hw2 in H3. fold w3 in H3. destruct H3 as (_ & _ & W3 & B3).
  pose proof (mutate_all_frame ms2 w2) as (S3 & C3 & T3). fold w3 in S3, C3, T3.
  pose proof (flushed_popped_spec (target w) w3 W3) as F.
  cbv zeta in F. fold w4 in F.
  destruct F as (Hh4 & _ & _ & _ & _ & _ & C4).
  split_and!.
  - rewrite turn_returning by done. by rewrite Hw1.
  - rewrite turn_returning; [|done|done|done|by rewrite S2|by rewrite S2].
    by rewrite Hw2, T2.
  - rewrite Hh2. exact (lookup_total_app_new (heap w1) _ 0).
  - transitivity (Object_freeze (spread (heap w3 !!! preBatchStaleState w3))).
    + rewrite Hh4. exact (lookup_total_app_new (heap w3) _ 1).
    + rewrite B3, spread_idem, T2, Ht2, Hh2. symmetry.
      exact (lookup_total_app_new (heap w1) _ 0).
  - rewrite C4, S3, S2, C3, C2, <- app_assoc. done.
Qed.

Lemma consecutive_notifications_chain_witness :
  turn passive 5 [Assign a (num 3)] service_ab
    = Some (flushed 0 (set_microtasks [] (mutate_all [Assign a (num 3)] service_ab))).
Proof.
  refine (proj1 (consecutive_notifications_chain passive 5
            [Assign a (num 3)] [Remove b] service_ab _ _ _ _ _ _ _)).
  - split; vm_compute; lia.
  - reflexivity.
  - reflexivity.
  - reflexivity.
  - vm_compute. lia.
  - vm_compute. reflexivity.
  - vm_compute. reflexivity.
Defined.

(** ** Methods called by hand *)

(** X13 -- a change made through [amendState] or [pruneState] called by
    hand is silent.  With nothing pending, an accepted change made by
    calling the method directly is committed, but the flag and the queue
    stay as they are, so the checkpoint calls nobody; and the next
    notification has the change already in its [stale], so that no
    notification ever shows it as a difference. *)
Theorem direct_method_change_is_silent (body : fn → script) m w :
  well_formed w → queuedUpdateNotice w = false → microtasks w = [] →
  hadChange m w = true →
  (reflect_op m (heap w !!! target w)).2 = true →
  let w' := (call_method m w).1 in
  (call_method m w).2 = true ∧
  heap w' !!! target w = (reflect_op m (heap w !!! target w)).1 ∧
  queuedUpdateNotice w' = false ∧ microtasks w' = [] ∧
  (∀ fuel, 0 < fuel → run_microtasks body fuel w' = Some w') ∧
  (∀ ms fuel w2,
     any_change_worthy ms w' = true →
     run_microtasks body fuel (mutate_all ms w') = Some w2 →
     heap w2 !!! S (length (heap (mutate_all ms w'))) =
       Object_freeze (spread (reflect_op m (heap w !!! target w)).1)).
Proof.
  intros W Hq Hm Hc Hr w'.
  pose proof (call_method_scheduler m w) as [Q M]. fold w' in Q, M.
  pose proof (call_method_frame m w) as (_ & _ & T). fold w' in T.
  pose proof (call_method_well_formed m w W) as W'. fold w' in W'.
  assert (heap w' !!! target w = (reflect_op m (heap w !!! target w)).1) as Ht.
  { subst w'. rewrite call_method_idle by (done || apply W). rewrite Hc. simpl.
    rewrite lookup_total_insert_eq; [done|]. rewrite List.last_length.
    destruct W. lia. }
  rewrite Hq in Q. rewrite Hm in M.
  split_and!; try done.
  - rewrite call_method_idle by (done || apply W). by rewrite Hc.
  - intros fuel Hf. destruct fuel; [lia|]. simpl. by rewrite M.
  - intros ms fuel w2 Hw Hrun.
    destruct (batch_flush body ms w' fuel w2 (proj1 W') Q M Hw Hrun) as (_ & _ & F3 & _).
    by rewrite F3, T, Ht.
Qed.

Lemma direct_method_change_is_silent_witness :
  (call_method (Remove a) service_ab).2 = true.
Proof.
  refine (proj1 (direct_method_change_is_silent passive (Remove a) service_ab
                   _ _ _ _ _)).
  - split; vm_compute; lia.
  - reflexivity.
  - reflexivity.
  - vm_compute. reflexivity.
  - vm_compute. reflexivity.
Defined.

(** X14 -- [addToQueue] called by hand.  While a flush is pending the call
    does nothing at all: its argument is dropped.  With nothing pending
    it queues a flush that, with subscribers returning at once, calls
    each of them once with a frozen copy of the object given, whatever
    it is, as [fresh] and a frozen copy of the current baseline as
    [stale], and leaves the service idle. *)
Theorem addToQueue_by_hand (body : fn → script) fuel update w :
  well_formed w →
  (∀ g, Some g ∈ subscribers w → body g = Return) →
  length (subscribers w) + 2 ≤ fuel →
  (queuedUpdateNotice w = true → addToQueue update w = w) ∧
  (queuedUpdateNotice w = false → microtasks w = [] →
   ∃ w2,
     run_microtasks body fuel (addToQueue update w) = Some w2 ∧
     heap w2 !!! length (heap w) = Object_freeze (spread (heap w !!! update)) ∧
     heap w2 !!! S (length (heap w)) =
       Object_freeze (spread (heap w !!! preBatchStaleState w)) ∧
     calls w2 = calls w ++ ((λ g, (g, length (heap w), S (length (heap w))))
                              <$> active (subscribers w)) ∧
     queuedUpdateNotice w2 = false ∧ microtasks w2 = []).
Proof.
  intros W Hp Hf. split; [apply addToQueue_pending|].
  intros Hq Hm. unfold addToQueue. rewrite Hq, Hm. simpl.
  set (w1 := set_microtasks [FlushJob update] (set_queuedUpdateNotice true w)).
  assert (well_formed w1) as W1 by exact W.
  pose proof (flushed_popped_spec update w1 W1) as F. cbv zeta in F.
  destruct F as (Hh & Q & M & _ & _ & _ & C).
  eexists. split_and!.
  - apply run_microtasks_returning; done.
  - rewrite Hh. exact (lookup_total_app_new (heap w) _ 0).
  - rewrite Hh. exact (lookup_total_app_new (heap w) _ 1).
  - exact C.
  - exact Q.
  - exact M.
Qed.

Lemma addToQueue_by_hand_witness :
  addToQueue 1 pending_service = pending_service ∧
  ∃ w2, run_microtasks passive 5 (addToQueue 1 service_ab) = Some w2 ∧
        heap w2 !!! length (heap service_ab)
          = Object_freeze (spread (heap service_ab !!! 1)).
Proof.
  split.
  - refine (proj1 (addToQueue_by_hand passive 5 1 pending_service _ _ _) _).
    + split; vm_compute; lia.
    + reflexivity.
    + vm_compute. lia.
    + reflexivity.
  - destruct (proj2 (addToQueue_by_hand passive 5 1 service_ab
                       ltac:(split; vm_compute; lia) ltac:(reflexivity)
                       ltac:(vm_compute; lia))
                eq_refl eq_refl) as (w2 & H1 & H2 & _).
    exists w2. by split.
Defined.

(** ** Turns that mix changes with other mutations *)

(** X17 -- one notification for a mixed turn.  From an idle state, a turn
    in which at least one mutation is change-worthy, among any number of
    same-value assignments, deletions of absent keys and refused
    commits, queues exactly one flush.  Every call made until the queue
    is empty passes a [fresh] showing the record as the turn left it and
    a [stale] showing the record as the turn found it; subscribers that
    return at once are called exactly once each. *)
Theorem mixed_turn_single_notification (body : fn → script) ms w :
  well_formed w → queuedUpdateNotice w = false → microtasks w = [] →
  any_change_worthy ms w = true →
  let w1 := mutate_all ms w in
  let fresh := length (heap w1) in
  let stale := S (length (heap w1)) in
  microtasks w1 = [FlushJob (target w)] ∧
  (∀ fuel w2, run_microtasks body fuel w1 = Some w2 →
     microtasks w2 = [] ∧
     record_of (heap w2 !!! fresh) = record_of (heap w1 !!! target w) ∧
     record_of (heap w2 !!! stale) = record_of (heap w !!! target w) ∧
     ∃ cs, calls w2 = calls w ++ cs ∧ calls_with fresh stale cs) ∧
  ((∀ g, Some g ∈ subscribers w → body g = Return) →
   ∀ fuel, length (subscribers w) + 2 ≤ fuel →
     ∃ w2, run_microtasks body fuel w1 = Some w2 ∧
           queuedUpdateNotice w2 = false ∧
           calls w2 = calls w ++ ((λ g, (g, fresh, stale)) <$> active (subscribers w))).
Proof.
  intros W Hq Hm Hany w1 fresh stale.
  pose proof (mutate_all_idle ms w (proj1 W) Hq) as H. cbv zeta in H.
  rewrite Hany, Hm in H. fold w1 in H. destruct H as (Q1 & M1 & W1 & _).
  pose proof (mutate_all_frame ms w) as (S1 & C1 & _). fold w1 in S1, C1.
  split_and!.
  - exact M1.
  - intros fuel w2 Hr.
    destruct (batch_flush body ms w fuel w2 (proj1 W) Hq Hm Hany Hr) as (F1 & F2 & F3 & F4).
    subst fresh stale w1. split_and!; [done| | |done].
    + by rewrite F2, record_of_snapshot.
    + by rewrite F3, record_of_snapshot.
  - intros Hp fuel Hf.
    pose proof (flushed_popped_spec (target w) w1 W1) as F. cbv zeta in F.
    destruct F as (_ & Q & _ & _ & _ & _ & C).
    eexists. split_and!.
    + apply run_microtasks_returning; try done; by rewrite S1.
    + exact Q.
    + rewrite C, S1, C1. done.
Qed.

(** [{a: 1, b: 2}]: [a = 1], [delete c], [b = 5]. *)
Lemma mixed_turn_single_notification_witness :
  microtasks (mutate_all [Assign a (num 1); Remove (KString "c"); Assign b (num 5)]
                service_ab) = [FlushJob 0].
Proof.
  refine (proj1 (mixed_turn_single_notification passive
            [Assign a (num 1); Remove (KString "c"); Assign b (num 5)] service_ab
            _ _ _ _)).
  - split; vm_compute; lia.
  - reflexivity.
  - reflexivity.
  - vm_compute. reflexivity.
Defined.

(** * Deletion and batch, writes and delivery *)

Section Pending.

Variable body : fn → script.

#[local] Arguments run_job : simpl never.

(** The checkpoint when one flush is pending: whatever the subscribers
    do, every call made passes the frozen copy of the object the flush
    was queued for and the frozen copy of the baseline, both as they are
    when the checkpoint begins. *)
Lemma pending_flush fuel update w w2 :
  well_formed w → queuedUpdateNotice w = true →
  microtasks w = [FlushJob update] →
  run_microtasks body fuel w = Some w2 →
  microtasks w2 = [] ∧
  heap w2 !!! length (heap w) = Object_freeze (spread (heap w !!! update)) ∧
  heap w2 !!! S (length (heap w)) =
    Object_freeze (spread (heap w !!! preBatchStaleState w)) ∧
  ∃ cs, calls w2 = calls w ++ cs ∧
        calls_with (length (heap w)) (S (length (heap w))) cs.
Proof.
  intros W Hq Hm Hr. destruct fuel as [|fuel]; [done|].
  rewrite (run_microtasks_single body fuel _ w Hm Hq W) in Hr.
  pose proof (run_job_spec body fuel update (set_microtasks [] w) W Hq) as S.
  cbv zeta in S. simpl in S. destruct S as (S1 & _ & _ & S4 & S5 & S6 & _).
  destruct (run_job body fuel (FlushJob update) (set_microtasks [] w)) as [w3 out].
  simpl in *. destruct out, fuel; try done; by injection Hr as <-.
Qed.

(** The same when every subscriber returns at once. *)
Lemma pending_flush_returning fuel update w :
  well_formed w → queuedUpdateNotice w = true →
  microtasks w = [FlushJob update] →
  (∀ g, Some g ∈ subscribers w → body g = Return) →
  length (subscribers w) + 2 ≤ fuel →
  ∃ w2, run_microtasks body fuel w = Some w2 ∧
        calls w2 = calls w ++ ((λ g, (g, length (heap w), S (length (heap w))))
                                 <$> active (subscribers w)).
Proof.
  intros W Hq Hm Hp Hf.
  destruct (flushed_popped_spec update w W) as (_ & _ & _ & _ & _ & _ & C).
  eexists. split; [by apply run_microtasks_returning|exact C].
Qed.

(** A subscriber that writes to what it receives the way strict code
    does, after subscribers that return at once: the flush ends with the
    exception in the world in which the loop began, but for the calls
    made. *)
Lemma run_job_strict_write fuel update w pre f post arg k v e :
  well_formed w → queuedUpdateNotice w = true →
  subscribers w = pre ++ Some f :: post →
  (∀ g, Some g ∈ pre → body g = Return) →
  body f = ArgSet arg k v (λ ok, if ok then Return else Throw e) →
  length pre < fuel →
  run_job body fuel (FlushJob update) w =
    (set_calls (calls w ++ ((λ h, (h, length (heap w), S (length (heap w))))
                              <$> active pre)
                        ++ [(f, length (heap w), S (length (heap w)))])
       (emit_start update w),
     Thrown e).
Proof.
  intros W Hq Hs Hp Hf Hfuel.
  pose proof (delivering_emit_start update w W Hq) as D.
  set (lf := length (heap w)) in *. set (ls := S lf) in *.
  set (w1 := set_calls (calls w ++ ((λ g, (g, lf, ls)) <$> active pre) ++ [(f, lf, ls)])
               (emit_start update w)).
  assert (run_script lf ls (body f) w1 = (w1, Thrown e)) as Hrun.
  { rewrite Hf. apply run_script_strict_write. exact D. }
  assert (for_of_subscribers body fuel 0 lf ls (emit_start update w) = (w1, Thrown e))
    as L.
  { pose proof (for_of_subscribers_thrower body lf ls fuel (emit_start update w)
                  pre f post e Hs Hp Hfuel) as L. cbv zeta in L.
    change (set_calls _ (emit_start update w)) with w1 in L.
    rewrite Hrun in L. by apply L. }
  rewrite run_job_unfold by apply W. fold lf ls. by rewrite L.
Qed.

End Pending.

(** C6, as the code has it -- deletion.  Deleting a key the record does
    not have returns [true] and changes nothing.  Deleting a key the
    record has and lets go of returns [true], removes the key, and is
    reported by exactly one flush, whose [fresh] is the record without
    the key.  The [stale] of that flush is the baseline of the batch:
    with nothing pending the deletion first records it, as a copy of the
    record just before the deletion, so that it shows the key with its
    old value if the key is enumerable; with a flush pending the
    deletion keeps the baseline recorded by the first change of the
    batch and queues nothing more, so that [stale] shows what that
    baseline holds, whatever the key was just before the deletion.
    Subscribers that simply return are called exactly once each. *)
Theorem remove_semantics (body : fn → script) k w :
  (Object_hasOwn (heap w !!! target w) k = false →
   agent_deleteProperty k w = (w, true)) ∧
  (∀ p,
     well_formed w →
     props (heap w !!! target w) !! k = Some p →
     p_configurable p = true →
     let w1 := (agent_deleteProperty k w).1 in
     let fresh := length (heap w1) in
     let stale := S (length (heap w1)) in
     (agent_deleteProperty k w).2 = true ∧
     Object_hasOwn (heap w1 !!! target w) k = false ∧
     (queuedUpdateNotice w = false → microtasks w = [] →
        heap w1 !!! preBatchStaleState w1 = spread (heap w !!! target w) ∧
        microtasks w1 = [FlushJob (target w)] ∧
        (∀ fuel w2, run_microtasks body fuel w1 = Some w2 →
           record_of (heap w2 !!! fresh) = delete k (record_of (heap w !!! target w)) ∧
           record_of (heap w2 !!! stale) = record_of (heap w !!! target w) ∧
           record_of (heap w2 !!! stale) !! k =
             (if p_enumerable p then Some (p_value p) else None) ∧
           ∃ cs, calls w2 = calls w ++ cs ∧ calls_with fresh stale cs)) ∧
     (queuedUpdateNotice w = true → microtasks w = [FlushJob (target w)] →
      preBatchStaleState w ≠ target w →
        preBatchStaleState w1 = preBatchStaleState w ∧
        heap w1 !!! preBatchStaleState w1 = heap w !!! preBatchStaleState w ∧
        microtasks w1 = [FlushJob (target w)] ∧
        (∀ fuel w2, run_microtasks body fuel w1 = Some w2 →
           record_of (heap w2 !!! fresh) = delete k (record_of (heap w !!! target w)) ∧
           record_of (heap w2 !!! stale) =
             record_of (heap w !!! preBatchStaleState w) ∧
           ∃ cs, calls w2 = calls w ++ cs ∧ calls_with fresh stale cs)) ∧
     (microtasks w1 = [FlushJob (target w)] →
      (∀ g, Some g ∈ subscribers w → body g = Return) →
      ∀ fuel, length (subscribers w) + 2 ≤ fuel →
        ∃ w2, run_microtasks body fuel w1 = Some w2 ∧
              calls w2 = calls w ++ ((λ g, (g, fresh, stale)) <$> active (subscribers w)))).
Proof.
  split.
  - intros H. unfold agent_deleteProperty, pruneState. rewrite H. done.
  - intros p W Hk Hc w1 fresh stale.
    pose proof W as [Ht Hpb].
    set (m := Remove k).
    assert (hadChange m w = true) as Hh by (simpl; unfold Object_hasOwn; by rewrite Hk).
    assert (reflect_op m (heap w !!! target w) =
            (Obj (delete k (props (heap w !!! target w)))
                 (extensible (heap w !!! target w)), true)) as Hop.
    { simpl. unfold Reflect_deleteProperty. by rewrite Hk, Hc. }
    destruct (mutate_target m w Ht) as [R T]. rewrite Hh, Hop in R, T. simpl in R, T.
    fold w1 in T.
    assert (change_worthy m w = true) as Hw
      by (unfold change_worthy; rewrite Hh; exact R).
    assert (any_change_worthy [m] w = true) as Hany by (simpl; by rewrite Hw).
    pose proof (mutate_frame m w) as (S1 & C1 & T1).
    change (mutate m w).1 with w1 in S1, C1, T1.
    assert (well_formed w1) as W1 by (by apply (mutate_well_formed m w)).
    assert (record_of (Object_freeze (spread (heap w1 !!! target w))) =
            delete k (record_of (heap w !!! target w))) as Hfresh
      by (rewrite record_of_snapshot, T; apply record_of_delete).
    split_and!.
    + exact R.
    + rewrite T. unfold Object_hasOwn. simpl. by rewrite lookup_delete_eq.
    + intros Hq Hm.
      pose proof (mutate_all_idle [m] w Ht Hq) as H. cbv zeta in H.
      rewrite Hany, Hm in H. destruct H as (_ & M1 & _ & B1).
      change (mutate_all [m] w) with w1 in M1, B1.
      split_and!; try done. intros fuel w2 Hr.
      destruct (batch_flush body [m] w fuel w2 Ht Hq Hm Hany Hr) as (_ & F2 & F3 & F4).
      change (mutate_all [m] w) with w1 in F2, F3, F4.
      subst fresh stale. rewrite F2, F3, Hfresh, record_of_snapshot.
      split_and!; try done. by rewrite record_of_lookup, Hk.
    + intros Hq Hm Hne.
      pose proof (mutate_pending m w Hq) as Q.
      pose proof (quiet_other _ _ (preBatchStaleState w) Q Hne) as Ho.
      pose proof (quiet_length _ _ Q) as Hl.
      destruct Q as (Q1 & Q2 & Q3 & _).
      change (mutate m w).1 with w1 in Q1, Q2, Q3, Ho, Hl.
      rewrite Hq in Q1. rewrite Hm in Q2.
      split_and!; [done|by rewrite Q3|done|].
      intros fuel w2 Hr.
      destruct (pending_flush body fuel (target w) w1 w2 W1 Q1 Q2 Hr)
        as (_ & F2 & F3 & F4).
      subst fresh stale. rewrite F2, F3, Hfresh, record_of_snapshot, Q3, Ho.
      by rewrite C1 in F4.
    + intros M1 Hp fuel Hf.
      assert (queuedUpdateNotice w1 = true) as Q1.
      { destruct (mutate_microtasks m w Ht) as [_ Q].
        change (mutate m w).1 with w1 in Q. by rewrite Q, Hw. }
      destruct (pending_flush_returning body fuel (target w) w1 W1 Q1 M1) as (w2 & H1 & H2).
      * by rewrite S1.
      * by rewrite S1.
      * exists w2. split; [done|]. by rewrite H2, C1, S1.
Qed.

(** [{a: 1, b: 2}]: [delete state.c] does nothing; [delete state.a]
    with nothing pending queues the flush; [delete state.b] after
    [a = 3] keeps the baseline of the batch. *)
Lemma remove_semantics_witness :
  agent_deleteProperty c service_ab = (service_ab, true) ∧
  microtasks (agent_deleteProperty a service_ab).1 = [FlushJob 0] ∧
  preBatchStaleState (agent_deleteProperty b pending_service).1
    = preBatchStaleState pending_service.
Proof.
  split_and!.
  - refine (proj1 (remove_semantics passive c service_ab) _).
    vm_compute. reflexivity.
  - refine (proj1 (proj2 (proj1 (proj2 (proj2
             (proj2 (remove_semantics passive a service_ab) (data (num 1)) _ _ _))) _ _))).
    + split; vm_compute; lia.
    + vm_compute. reflexivity.
    + reflexivity.
    + reflexivity.
    + reflexivity.
  - refine (proj1 (proj1 (proj2 (proj2 (proj2
             (proj2 (remove_semantics passive b pending_service) (data (num 2)) _ _ _))))
             _ _ _)).
    + split; vm_compute; lia.
    + vm_compute. reflexivity.
    + reflexivity.
    + reflexivity.
    + reflexivity.
    + vm_compute. lia.
Defined.

(** C6, as the specification has it, fails when a flush is already
    pending: on [{a: 1, b: 2}], after [c = 9] in the same turn,
    [delete c] is accepted and the one notification has a [stale]
    without [c], although [c] was [9] just before the deletion; and
    after [a = 3] in the same turn, [delete a] gives a [stale] with
    [a: 1], although [a] was [3] just before the deletion. *)
Lemma removed_key_not_as_it_was_in_stale :
  let w1 := (mutate (Assign c (num 9)) service_ab).1 in
  let after1 := run_microtasks passive 5 (mutate (Remove c) w1).1 in
  let w2 := (mutate (Assign a (num 3)) service_ab).1 in
  let after2 := run_microtasks passive 5 (mutate (Remove a) w2).1 in
  Reflect_get (heap w1 !!! target w1) c = num 9 ∧
  (mutate (Remove c) w1).2 = true ∧
  calls <$> after1 = Some [(0, 3, 4)] ∧
  (λ w, Object_hasOwn (heap w !!! 3) c) <$> after1 = Some false ∧
  (λ w, Object_hasOwn (heap w !!! 4) c) <$> after1 = Some false ∧
  Reflect_get (heap w2 !!! target w2) a = num 3 ∧
  (mutate (Remove a) w2).2 = true ∧
  calls <$> after2 = Some [(0, 3, 4)] ∧
  (λ w, Object_hasOwn (heap w !!! 3) a) <$> after2 = Some false ∧
  (λ w, Reflect_get (heap w !!! 4) a) <$> after2 = Some (num 1).
Proof.
  cbv zeta. repeat split; vm_compute; reflexivity.
Qed.

(** C8, as the code has it -- frozen snapshots.  Every call of a flush
    passes two objects that were allocated by that flush, distinct from
    the target and from the baseline, and frozen.  A write to one of
    them is refused, and the write itself changes nothing: not the
    object, not the record, not the baseline.  When the refusal comes
    back as a result ([Reflect.set] returning [false]) the subscriber
    goes on and nothing at all has changed, during the flush and at any
    time after it.  When the refusal is thrown, as by an assignment in
    strict code, the subscriber throws while it is being notified: the
    flush ends with the exception, the subscribers after it are not
    called, the flag stays set, and no later mutation queues a flush. *)
Theorem snapshots_are_frozen_copies (body : fn → script) fuel update w :
  well_formed w → queuedUpdateNotice w = true →
  let w' := (run_job body fuel (FlushJob update) w).1 in
  (∃ cs, calls w' = calls w ++ cs ∧
     ∀ f fresh stale, (f, fresh, stale) ∈ cs →
       fresh ≠ stale ∧
       handed_out w w' fresh ∧ handed_out w w' stale ∧
       record_of (heap w' !!! fresh) = record_of (heap w !!! update) ∧
       record_of (heap w' !!! stale) = record_of (heap w !!! preBatchStaleState w)) ∧
  (∀ fresh stale w0 arg k v next,
     delivering fresh stale w0 →
     run_script fresh stale (ArgSet arg k v next) w0 =
       run_script fresh stale (next false) w0) ∧
  (∀ fresh stale w0 arg k v e,
     delivering fresh stale w0 →
     run_script fresh stale
       (ArgSet arg k v (λ ok, if ok then Return else Throw e)) w0 = (w0, Thrown e)) ∧
  (∀ pre f post arg k v e,
     subscribers w = pre ++ Some f :: post →
     (∀ g, Some g ∈ pre → body g = Return) →
     body f = ArgSet arg k v (λ ok, if ok then Return else Throw e) →
     length pre < fuel →
     let call := λ h, (h, length (heap w), S (length (heap w))) in
     (run_job body fuel (FlushJob update) w).2 = Thrown e ∧
     heap w' !!! target w' = heap w !!! target w ∧
     preBatchStaleState w' = preBatchStaleState w ∧
     heap w' !!! preBatchStaleState w' = heap w !!! preBatchStaleState w ∧
     calls w' = calls w ++ (call <$> active pre) ++ [call f] ∧
     queuedUpdateNotice w' = true ∧
     ∀ ms, microtasks (mutate_all ms w') = microtasks w).
Proof.
  intros W Hq w'.
  destruct (delivered_objects_are_frozen body fuel update w W Hq) as [H1 H2].
  split_and!; [exact H1|exact H2| |].
  - intros fresh stale w0 arg k v e D. by apply run_script_strict_write.
  - intros pre f post arg k v e Hs Hp Hf Hfuel call. subst w'.
    rewrite (run_job_strict_write body fuel update w pre f post arg k v e) by done.
    destruct W as [Ht Hpb]. simpl.
    split_and!; try done.
    + rewrite !list_lookup_total_alt, lookup_app_l by done. done.
    + rewrite !list_lookup_total_alt, lookup_app_l by done. done.
    + intros ms.
      set (w1 := set_calls _ (emit_start update w)).
      assert (queuedUpdateNotice w1 = true) as Hq1 by exact Hq.
      by destruct (mutate_all_pending ms w1 Hq1) as (_ & -> & _).
Qed.

(** The flush of [{a: 1, b: 2}] after [a = 3], to a subscriber that
    writes to [fresh] in strict code. *)
Lemma snapshots_are_frozen_copies_witness :
  (run_job strict_writer 5 (FlushJob 0) (set_microtasks [] pending_service)).2
    = Thrown (VString "TypeError").
Proof.
  refine (proj1 (proj2 (proj2 (proj2
    (snapshots_are_frozen_copies strict_writer 5 0 (set_microtasks [] pending_service) _ _)))
    [] 0 [] Fresh a (num 9) (VString "TypeError") _ _ _ _)).
  - split; vm_compute; lia.
  - reflexivity.
  - reflexivity.
  - intros g Hg. by apply elem_of_nil in Hg.
  - reflexivity.
  - simpl. lia.
Defined.

(** C8, as the specification has it, fails for a write made in strict
    code by a subscriber: on [{a: 1, b: 2}] with one subscriber, after
    [a = 3], a later [a = 4] is notified when the subscriber simply
    returns (two calls); when the subscriber assigns to a property of
    [fresh], the assignment is refused and changes neither the snapshot
    nor the record, but the flag stays set, and the later [a = 4],
    although committed, is never notified (one call). *)
Lemma strict_write_ends_notifications :
  let after := λ body, run_microtasks body 5 pending_service in
  let later := λ body,
    after body ≫= λ w, run_microtasks body 5 (mutate (Assign a (num 4)) w).1 in
  calls <$> later passive = Some [(0, 3, 4); (0, 7, 8)] ∧
  calls <$> after strict_writer = Some [(0, 3, 4)] ∧
  (λ w, Reflect_get (heap w !!! 3) a) <$> after strict_writer = Some (num 3) ∧
  (λ w, Reflect_get (heap w !!! target w) a) <$> after strict_writer = Some (num 3) ∧
  queuedUpdateNotice <$> after strict_writer = Some true ∧
  change_worthy (Assign a (num 4)) <$> after strict_writer = Some true ∧
  (λ w, Reflect_get (heap w !!! target w) a) <$> later strict_writer = Some (num 4) ∧
  calls <$> later strict_writer = Some [(0, 3, 4)].
Proof.
  cbv zeta. repeat split; vm_compute; reflexivity.
Qed.

(** * Unsubscribed, and not subscribed again *)

Lemma Set_delete_gone f s : Some f ∉ Set_delete f s.
Proof.
  unfold Set_delete. rewrite list_elem_of_fmap. intros (x & E & _).
  by destruct (decide (x = Some f)).
Qed.

(** A script that never subscribes [f] leaves [f] out of the set. *)
Lemma run_script_keeps_out f lf ls s : ∀ w,
  (¬ subscribes f s) → Some f ∉ subscribers w →
  Some f ∉ subscribers (run_script lf ls s w).1.
Proof.
  induction s as [| e | k next IH | k v next IH | k next IH | k v next IH
                 | k next IH | g next IH | g next IH | next IH
                 | a k next IH | a k v next IH | a k next IH]; intros w Hn Hf; simpl in *.
  - done.
  - done.
  - apply IH; [|done]. intros H. apply Hn. by eexists.
  - pose proof (agent_set_frame k v w) as (S1 & _).
    destruct (agent_set k v w) as [w1 r]. simpl in *.
    apply IH; [|by rewrite S1]. intros H. apply Hn. by eexists.
  - pose proof (agent_deleteProperty_frame k w) as (S1 & _).
    destruct (agent_deleteProperty k w) as [w1 r]. simpl in *.
    apply IH; [|by rewrite S1]. intros H. apply Hn. by eexists.
  - pose proof (amendState_frame k v w) as (S1 & _).
    destruct (amendState k v w) as [w1 r]. simpl in *.
    apply IH; [|by rewrite S1]. intros H. apply Hn. by eexists.
  - pose proof (pruneState_frame k w) as (S1 & _).
    destruct (pruneState k w) as [w1 r]. simpl in *.
    apply IH; [|by rewrite S1]. intros H. apply Hn. by eexists.
  - apply IH; [tauto|]. simpl. unfold Set_add.
    destruct (decide (Some g ∈ subscribers w)); [done|].
    rewrite elem_of_app, list_elem_of_singleton. intros [H|H]; [done|].
    apply Hn. left. by injection H.
  - apply IH; [done|]. simpl. intros H. by apply Set_delete_elem in H.
  - apply IH; [done|]. simpl. apply Set_clear_elem.
  - apply IH; [|done]. intros H. apply Hn. by eexists.
  - apply IH; [|done]. intros H. apply Hn. by eexists.
  - apply IH; [|done]. intros H. apply Hn. by eexists.
Qed.

Lemma for_of_subscribers_keeps_out (body : fn → script) f lf ls fuel : ∀ i w,
  (∀ g, ¬ subscribes f (body g)) → (Some f ∉ subscribers w) →
  let w' := (for_of_subscribers body fuel i lf ls w).1 in
  (Some f ∉ subscribers w') ∧
  ∃ cs, calls w' = calls w ++ cs ∧ ∀ x, x ∈ cs → x.1.1 ≠ f.
Proof.
  induction fuel as [|fuel IH]; intros i w Hn Hf; simpl.
  - split; [done|]. exists []. split; [by rewrite app_nil_r|].
    intros x Hx. by apply elem_of_nil in Hx.
  - destruct (subscribers w !! i) as [[g|]|] eqn:E.
    + assert (g ≠ f) as Hg.
      { intros ->. apply Hf. by eapply list_elem_of_lookup_2. }
      set (w1 := set_calls (calls w ++ [(g, lf, ls)]) w).
      pose proof (run_script_keeps_out f lf ls (body g) w1 (Hn g) Hf) as Hk.
      pose proof (run_script_frame lf ls (body g) w1) as [Hc _].
      destruct (run_script lf ls (body g) w1) as [w2 out]. simpl in *.
      assert (∃ cs, calls w2 = calls w ++ cs ∧ ∀ x, x ∈ cs → x.1.1 ≠ f) as Hone.
      { exists [(g, lf, ls)]. split; [done|].
        intros x Hx. apply list_elem_of_singleton in Hx. by subst x. }
      destruct out; [|done|done].
      destruct (IH (S i) w2 Hn Hk) as (Hk' & cs & Hcs & Hall).
      split; [done|]. exists ((g, lf, ls) :: cs). split.
      * rewrite Hcs, Hc, <- app_assoc. done.
      * intros x Hx. apply elem_of_cons in Hx as [->|Hx]; [done|by apply Hall].
    + by apply IH.
    + split; [done|]. exists []. split; [by rewrite app_nil_r|].
      intros x Hx. by apply elem_of_nil in Hx.
Qed.

(** X18 -- unsubscribed, and not called unless subscribed again.  A
    function unsubscribed before a flush runs is not called by that
    flush and is still out of the set after it, whatever the subscribers
    do while they are notified (throw, mutate the state, subscribe or
    unsubscribe other functions), as long as none of them subscribes it
    again. *)
Theorem unsubscribed_not_called_unless_resubscribed (body : fn → script)
    fuel update f w :
  (∀ g, ¬ subscribes f (body g)) →
  let w' := (run_job body fuel (FlushJob update) (unsubscribe f w)).1 in
  (Some f ∉ subscribers w') ∧
  ∃ cs, calls w' = calls w ++ cs ∧ ∀ x, x ∈ cs → x.1.1 ≠ f.
Proof.
  intros Hn. cbv zeta. unfold run_job, emitQueued, alloc. simpl.
  match goal with |- context [for_of_subscribers body fuel 0 ?lf ?ls ?w0] =>
    pose proof (for_of_subscribers_keeps_out body f lf ls fuel 0 w0 Hn
                  (Set_delete_gone f (subscribers w))) as H;
    destruct (for_of_subscribers body fuel 0 lf ls w0) as [w1 out]
  end.
  simpl in H. by destruct out.
Qed.

(** Subscriber [0] throws, nobody subscribes [1]. *)
Lemma unsubscribed_not_called_unless_resubscribed_witness :
  Some 1 ∉ subscribers
    (run_job faulty 5 (FlushJob 0) (unsubscribe 1 pending_service_2)).1.
Proof.
  refine (proj1 (unsubscribed_not_called_unless_resubscribed faulty 5 0 1
                   pending_service_2 _)).
  intros [|g]; simpl; tauto.
Defined.
